(** * Java-Yoshi release strategy: a shallow embedding and its properties

    The development follows [src/strategies/java-yoshi.ts].  It has three
    layers:

    - [JS]: the fragment of the JavaScript runtime the file relies on:
      strings as sequences of UTF-16 code units, a backtracking matcher for
      the regular-expression operators that occur in the two patterns of the
      file, an insertion-ordered [Map] and the array methods;
    - the strategy itself, in a section whose variables are the collaborators
      the file imports but does not define (the version type, the hosting
      backend, the pluggable versioning strategy, [addPath]);
    - the properties. *)

From Stdlib Require Import String Ascii.
From Stdlib Require Import List NArith Bool Arith Lia.
Import ListNotations.

(** [length] is the length of a list throughout. *)
Local Abbreviation length := List.length.

Set Implicit Arguments.

(* ================================================================= *)
(** ** The JavaScript fragment *)

Module JS.

(** A JavaScript string is a sequence of 16-bit code units. *)
Definition char := N.
Definition jsstring := list char.

(** String literals of the source, written as Rocq strings. *)
Definition lit (s : String.string) : jsstring :=
  map Ascii.N_of_ascii (String.list_ascii_of_string s).
Arguments lit s%_string.

(** [===] on strings. *)
Fixpoint str_eqb (a b : jsstring) : bool :=
  match a, b with
  | [], [] => true
  | x :: a', y :: b' => N.eqb x y && str_eqb a' b'
  | _, _ => false
  end.

(** Truthiness of a string: only the empty string is falsy. *)
Definition truthy (s : jsstring) : bool :=
  match s with [] => false | _ :: _ => true end.

(** *** Character classes *)

Definition hyphen : char := 45%N.
Definition letter_v : char := 118%N.

(** The class of decimal digits, \d. *)
Definition isDigit (c : char) : bool := (48 <=? c)%N && (c <=? 57)%N.

(** LineTerminator: LF, CR, LS, PS. *)
Definition isLineTerminator (c : char) : bool :=
  N.eqb c 10 || N.eqb c 13 || N.eqb c 8232 || N.eqb c 8233.

(** The class of the dot, without the s flag. *)
Definition dot (c : char) : bool := negb (isLineTerminator c).

(** Every character but the hyphen. *)
Definition notHyphen (c : char) : bool := negb (N.eqb c hyphen).

(** *** Patterns

    Only the operators used by the file: the two assertions, a literal, a
    class, the greedy quantifiers applied to a class, concatenation and a
    numbered capturing group. *)
Inductive regex : Type :=
| Bos
| Eos
| Lit (c : char)
| Class (p : char -> bool)
| Star (p : char -> bool)
| Plus (p : char -> bool)
| Seq (r1 r2 : regex)
| Group (n : nat) (r : regex).

Declare Scope regex_scope.
Delimit Scope regex_scope with re.
Infix ">>" := Seq (at level 60, right associativity) : regex_scope.

(** The matcher state: the index reached, the input still to read and the
    captures made so far (latest first). *)
Record mstate : Type := MState {
  pos : nat;
  rest : jsstring;
  caps : list (nat * jsstring)
}.

(** A greedy quantifier over a class: take as many characters as possible,
    then give characters back one at a time until the continuation accepts. *)
Fixpoint greedy (R : Type) (p : char -> bool) (i : nat) (s : jsstring)
         (k : nat -> jsstring -> option R) : option R :=
  match s with
  | c :: s' =>
      if p c then
        match greedy p (S i) s' k with
        | Some r => Some r
        | None => k i s
        end
      else k i s
  | [] => k i s
  end.

(** Backtracking matching in continuation-passing style. *)
Fixpoint rmatch (r : regex) (st : mstate) (k : mstate -> option mstate)
  : option mstate :=
  match r with
  | Bos => if Nat.eqb (pos st) 0 then k st else None
  | Eos => match rest st with [] => k st | _ :: _ => None end
  | Lit c =>
      match rest st with
      | x :: s' =>
          if N.eqb x c then k (MState (S (pos st)) s' (caps st)) else None
      | [] => None
      end
  | Class p =>
      match rest st with
      | x :: s' =>
          if p x then k (MState (S (pos st)) s' (caps st)) else None
      | [] => None
      end
  | Star p =>
      greedy p (pos st) (rest st) (fun i s => k (MState i s (caps st)))
  | Plus p =>
      match rest st with
      | x :: s' =>
          if p x
          then greedy p (S (pos st)) s' (fun i s => k (MState i s (caps st)))
          else None
      | [] => None
      end
  | Seq r1 r2 => rmatch r1 st (fun st' => rmatch r2 st' k)
  | Group n r1 =>
      rmatch r1 st (fun st' =>
        k (MState (pos st') (rest st')
                  ((n, firstn (pos st' - pos st) (rest st)) :: caps st')))
  end.

(** The array returned by a successful match: where it starts, the matched
    text and the captures. *)
Record match_result : Type := MatchResult {
  index : nat;
  matched : jsstring;
  groups : list (nat * jsstring)
}.

(** Try the pattern at every index, left to right. *)
Fixpoint exec_from (r : regex) (i : nat) (s : jsstring) : option match_result :=
  match rmatch r (MState i s []) Some with
  | Some st => Some (MatchResult i (firstn (pos st - i) s) (caps st))
  | None =>
      match s with
      | [] => None
      | _ :: s' => exec_from r (S i) s'
      end
  end.

(** [s.match(r)] for a pattern without the [g] flag; [None] is [null]. *)
Definition str_match (s : jsstring) (r : regex) : option match_result :=
  exec_from r 0 s.

Fixpoint lookup_group (n : nat) (gs : list (nat * jsstring)) : option jsstring :=
  match gs with
  | [] => None
  | (m, g) :: gs' => if Nat.eqb m n then Some g else lookup_group n gs'
  end.

(** [m[n]]: the text of group [n].  A group that took no part in the match is
    [undefined]; in both patterns of the file the group lies on every path,
    so that it is set by every successful match (lemma
    [str_match_versioned_inv] below), and [[]] stands for [undefined]
    here, which is falsy like the empty string. *)
Definition capture (m : match_result) (n : nat) : jsstring :=
  match lookup_group n (groups m) with
  | Some g => g
  | None => []
  end.

(** *** Map

    A [Map] with string keys: the entries in insertion order.  [set] on a
    key that is present replaces its value where it stands, [set] on a new
    key appends an entry, [get] on a missing key is [undefined] ([None]). *)
Module Map.

Definition t (V : Type) : Type := list (jsstring * V).

Fixpoint get (V : Type) (m : t V) (k : jsstring) : option V :=
  match m with
  | [] => None
  | (k', v) :: m' => if str_eqb k' k then Some v else get m' k
  end.

Fixpoint set (V : Type) (m : t V) (k : jsstring) (v : V) : t V :=
  match m with
  | [] => [(k, v)]
  | (k', v') :: m' =>
      if str_eqb k' k then (k', v) :: m' else (k', v') :: set m' k v
  end.

Definition keys (V : Type) (m : t V) : list jsstring := map fst m.

End Map.

(** *** Arrays *)

(** [arr.push(x)] *)
Definition push (A : Type) (arr : list A) (x : A) : list A := arr ++ [x].

(** [arr.forEach(f)] for a callback that updates a local variable [acc]. *)
Definition forEach (A S : Type) (arr : list A) (f : S -> A -> S) (acc : S) : S :=
  fold_left f arr acc.

End JS.

Import JS.
Local Open Scope regex_scope.

(* ================================================================= *)
(** ** Artifact stability *)

(** The first pattern of the file, token by token:
    ^  .*  -  ( v  \d+  [^-]* )  $ *)
Definition VERSIONED_ARTIFACT_REGEX : regex :=
  Bos >> Star dot >> Lit hyphen >>
  Group 1 (Lit letter_v >> Plus isDigit >> Star notHyphen) >> Eos.

(** The second pattern of the file, token by token:
    ^  v  \d+  ( .* )  $ *)
Definition VERSION_REGEX : regex :=
  Bos >> Lit letter_v >> Plus isDigit >> Group 1 (Star dot) >> Eos.

Definition isStableArtifact (artifact : jsstring) : bool :=
  match str_match artifact VERSIONED_ARTIFACT_REGEX with
  | None =>
      (* The artifact does not have a version qualifier at the end *)
      true
  | Some m =>
      match str_match (capture m 1) VERSION_REGEX with
      | Some versionMatch =>
          if truthy (capture versionMatch 1)
          then (* The version is not stable (probably alpha/beta/rc) *) false
          else true
      | None => true
      end
  end.

(** *** Definitions used to state and prove the properties of the patterns *)

(** The length of the longest prefix of [s] made of characters of [p]. *)
Fixpoint run (p : char -> bool) (s : jsstring) : nat :=
  match s with
  | c :: s' => if p c then S (run p s') else 0
  | [] => 0
  end.

(** The outcome of the inner test of [isStableArtifact]. *)
Definition qualified (g : jsstring) : bool :=
  match g with
  | c :: d :: t =>
      N.eqb c letter_v && isDigit d && forallb dot t
      && truthy (skipn (run isDigit t) t)
  | _ => false
  end.

(** The text after the hyphen opens with the letter v and a digit. *)
Definition starts_version (t : jsstring) : bool :=
  match t with
  | c :: d :: _ => N.eqb c letter_v && isDigit d
  | _ => false
  end.

(** The first character of a text is a digit. *)
Definition head_isDigit (q : jsstring) : bool :=
  match q with
  | c :: _ => isDigit c
  | [] => false
  end.

(** The keys the code classifies as not stable. *)
Definition prestable_form (key : jsstring) : Prop :=
  exists base ds q,
    key = base ++ lit "-v" ++ ds ++ q /\
    ds <> [] /\ forallb isDigit ds = true /\
    q <> [] /\ forallb notHyphen q = true /\ head_isDigit q = false /\
    forallb dot base = true /\ forallb dot q = true.

(* ================================================================= *)
(** ** The strategy *)

(** *** Outcomes and requests *)

(** Modelled from the spec: the error classes of "../errors", which the file
    imports: the backend's "file not found" signal, the "required file
    missing" error with the path, the strategy name and the repository
    identifier it carries, and any other failure. *)
Inductive Error : Type :=
| FileNotFoundError (file : jsstring)
| MissingRequiredFileError (file component source : jsstring)
| OtherError (what : jsstring).

(** [err instanceof FileNotFoundError] *)
Definition instanceof_FileNotFoundError (err : Error) : bool :=
  match err with
  | FileNotFoundError _ => true
  | _ => false
  end.

(** How a computation ends: with a value, or by throwing. *)
Inductive Result (A : Type) : Type :=
| Ok (a : A)
| Throw (err : Error).
Arguments Ok {A} a.
Arguments Throw {A} err.

(** A request sent to the hosting backend. *)
Inductive Request : Type :=
| GetFileContentsOnBranch (file branch : jsstring)
| FindFilesByFilenameAndRef (filename ref prefix : jsstring).

Section Strategy.

(** *** Collaborators

    What the file imports and does not define. *)

(** The version value type of "../version". *)
Variable Version : Type.
(** [Version.parse] *)
Variable Version_parse : jsstring -> Version.
(** A reference of a commit to an issue ("../commit"). *)
Variable Reference : Type.
(** The contents of a file as the hosting backend returns them. *)
Variable GitHubFileContents : Type.
(** An extra file given as an object rather than as a path. *)
Variable ExtraFileObject : Type.
(** The rendered changelog entry. *)
Variable ChangelogEntry : Type.

Definition VersionsMap : Type := Map.t Version.

Record Note : Type := {
  title : jsstring;
  text : jsstring
}.

(** The fields are those of the object literal in [postProcessCommits]. *)
Record ConventionalCommit : Type := {
  type : jsstring;
  bareMessage : jsstring;
  message : jsstring;
  breaking : bool;
  scope : option jsstring;
  notes : list Note;
  files : list jsstring;
  references : list Reference;
  sha : jsstring
}.

(** The updaters are opaque to the strategy: each is recorded with the
    options it was built from. *)
Inductive Updater : Type :=
| VersionsManifest (version : Version) (versionsMap : VersionsMap)
| JavaUpdate (version : Version) (versionsMap : VersionsMap) (isSnapshot : bool)
| Changelog (version : Version) (changelogEntry : ChangelogEntry).

Record Update : Type := {
  path : jsstring;
  createIfMissing : bool;
  cachedFileContents : option GitHubFileContents;
  updater : Updater
}.

Record JavaBuildUpdatesOption : Type := {
  newVersion : Version;
  versionsMap : VersionsMap;
  isSnapshot : bool;
  changelogEntry : ChangelogEntry
}.

(** An entry of [extraFiles]: [typeof] tells a path from an object. *)
Inductive ExtraFile : Type :=
| ExtraPath (p : jsstring)
| ExtraObject (o : ExtraFileObject).

Record Repository : Type := {
  owner : jsstring;
  repo : jsstring
}.

(** The fields of the strategy instance the file reads; [versionsContent]
    is the one it declares and writes. *)
Record JavaYoshi : Type := {
  root_path : jsstring;  (* [this.path], the root of the module *)
  targetBranch : jsstring;
  repository : Repository;
  extraFiles : list ExtraFile;
  skipChangelog : bool;
  changelogPath : jsstring;
  versionsContent : option GitHubFileContents
}.

Definition set_versionsContent (this : JavaYoshi) (c : GitHubFileContents)
  : JavaYoshi :=
  {| root_path := root_path this;
     targetBranch := targetBranch this;
     repository := repository this;
     extraFiles := extraFiles this;
     skipChangelog := skipChangelog this;
     changelogPath := changelogPath this;
     versionsContent := Some c |}.

(** One call of the versioning strategy. *)
Record BumpCall : Type := {
  bump_version : Version;
  bump_commits : list ConventionalCommit
}.

(** Everything a method can read or change: the instance, the requests sent
    to the backend so far, the warnings logged and the calls made to the
    versioning strategy. *)
Record World : Type := {
  this : JavaYoshi;
  requests : list Request;
  warnings : list jsstring;
  bumps : list BumpCall
}.

(** The hosting backend.  Its answer may depend on the requests that came
    before, so that asking twice need not give the same answer. *)
Variable github_getFileContentsOnBranch :
  list Request -> jsstring -> jsstring -> Result GitHubFileContents.
Variable github_findFilesByFilenameAndRef :
  list Request -> jsstring -> jsstring -> jsstring -> Result (list jsstring).

(** [this.versioningStrategy.bump] *)
Variable versioningStrategy_bump :
  Version -> list ConventionalCommit -> Version.

(** [this.addPath], inherited from the base strategy. *)
Variable addPath : JavaYoshi -> jsstring -> jsstring.

(** The collaborators of "../updaters/java/versions-manifest" and of the
    base strategy used by [needsSnapshot] and [buildVersionsMap]. *)
Variable VersionsManifest_parseVersions : GitHubFileContents -> VersionsMap.
Variable VersionsManifest_needsSnapshot : GitHubFileContents -> bool.
Variable canSkipSnapshot : JavaYoshi -> bool.

(** *** Methods as state transformers *)

Definition M (A : Type) : Type := World -> Result A * World.

Definition ret (A : Type) (a : A) : M A := fun w => (Ok a, w).

Definition bind (A B : Type) (c : M A) (k : A -> M B) : M B :=
  fun w =>
    match c w with
    | (Ok a, w') => k a w'
    | (Throw err, w') => (Throw err, w')
    end.

Definition throw (A : Type) (err : Error) : M A := fun w => (Throw err, w).
Arguments throw {A} err.

(** [try { body } catch (err) { handler }] *)
Definition try_catch (A : Type) (body : M A) (handler : Error -> M A) : M A :=
  fun w =>
    match body w with
    | (Ok a, w') => (Ok a, w')
    | (Throw err, w') => handler err w'
    end.

Notation "x <- c ;; k" := (bind c (fun x => k))
  (at level 61, c at next level, right associativity).
Notation "c ;;; k" := (bind c (fun _ => k))
  (at level 61, right associativity).

Definition get_this : M JavaYoshi := fun w => (Ok (this w), w).

(** [this.versionsContent = c] *)
Definition assign_versionsContent (c : GitHubFileContents) : M unit :=
  fun w =>
    (Ok tt, {| this := set_versionsContent (this w) c;
               requests := requests w;
               warnings := warnings w;
               bumps := bumps w |}).

(** [await this.github.getFileContentsOnBranch(file, branch)] *)
Definition getFileContentsOnBranch (file branch : jsstring)
  : M GitHubFileContents :=
  fun w =>
    (github_getFileContentsOnBranch (requests w) file branch,
     {| this := this w;
        requests := requests w ++ [GetFileContentsOnBranch file branch];
        warnings := warnings w;
        bumps := bumps w |}).

(** [this.github.findFilesByFilenameAndRef(filename, ref, prefix)]: the
    request leaves at once; the promise it returns holds the outcome. *)
Definition findFilesByFilenameAndRef (filename ref prefix : jsstring)
  : M (Result (list jsstring)) :=
  fun w =>
    (Ok (github_findFilesByFilenameAndRef (requests w) filename ref prefix),
     {| this := this w;
        requests := requests w ++ [FindFilesByFilenameAndRef filename ref prefix];
        warnings := warnings w;
        bumps := bumps w |}).

(** [await promise] *)
Definition await (A : Type) (promise : Result A) : M A :=
  fun w => (promise, w).

(** [this.logger.warn(msg)] *)
Definition logger_warn (msg : jsstring) : M unit :=
  fun w =>
    (Ok tt, {| this := this w;
               requests := requests w;
               warnings := warnings w ++ [msg];
               bumps := bumps w |}).

(** [await this.versioningStrategy.bump(version, commits)] *)
Definition bump (version : Version) (commits : list ConventionalCommit)
  : M Version :=
  fun w =>
    (Ok (versioningStrategy_bump version commits),
     {| this := this w;
        requests := requests w;
        warnings := warnings w;
        bumps := bumps w ++ [{| bump_version := version;
                                bump_commits := commits |}] |}).

(** [for (const x of xs) { body }] over a loop variable [acc]. *)
Fixpoint for_of (A S : Type) (xs : list A) (body : S -> A -> M S) (acc : S)
  : M S :=
  match xs with
  | [] => ret acc
  | x :: xs' => acc' <- body acc x ;; for_of xs' body acc'
  end.

(** *** The methods of the class *)

(** The commit pushed when there is none. *)
Definition fake_commit : ConventionalCommit :=
  {| type := lit "fake";
     bareMessage := lit "fake commit";
     message := lit "fake commit";
     breaking := false;
     scope := None;
     notes := [];
     files := [];
     references := [];
     sha := lit "fake" |}.

(** The array is changed in place and returned: the result is both the
    value returned and the new contents of the argument. *)
Definition postProcessCommits (commits : list ConventionalCommit)
  : list ConventionalCommit :=
  if Nat.eqb (length commits) 0
  then (* For Java commits, push a fake commit so we force a SNAPSHOT release *)
       push commits fake_commit
  else commits.

Definition getVersionsContent : M GitHubFileContents :=
  this <- get_this ;;
  match versionsContent this with
  | None =>
      try_catch
        (c <- getFileContentsOnBranch (addPath this (lit "versions.txt"))
                                      (targetBranch this) ;;
         assign_versionsContent c ;;;
         ret c)
        (fun err =>
           if instanceof_FileNotFoundError err
           then throw (MissingRequiredFileError
                         (addPath this (lit "versions.txt"))
                         (lit "JavaYoshi")
                         (owner (repository this) ++ lit "/"
                          ++ repo (repository this)))
           else throw err)
  | Some c => ret c
  end.

Definition needsSnapshot : M bool :=
  this <- get_this ;;
  if canSkipSnapshot this then ret false
  else
    c <- getVersionsContent ;;
    ret (VersionsManifest_needsSnapshot c).

Definition buildVersionsMap : M VersionsMap :=
  c <- getVersionsContent ;;
  assign_versionsContent c ;;;
  ret (VersionsManifest_parseVersions c).

(** The descriptor pushed for a build file or an extra file. *)
Definition java_update (options : JavaBuildUpdatesOption) (p : jsstring)
  : Update :=
  {| path := p;
     createIfMissing := false;
     cachedFileContents := None;
     updater := JavaUpdate (newVersion options) (versionsMap options)
                           (isSnapshot options) |}.

Definition buildUpdates (options : JavaBuildUpdatesOption) : M (list Update) :=
  this <- get_this ;;
  let updates : list Update := [] in
  let version := newVersion options in
  let versionsMap := versionsMap options in
  let updates :=
    push updates
      {| path := addPath this (lit "versions.txt");
         createIfMissing := false;
         cachedFileContents := versionsContent this;
         updater := VersionsManifest version versionsMap |} in
  pomFilesSearch <-
    findFilesByFilenameAndRef (lit "pom.xml") (targetBranch this)
                              (root_path this) ;;
  buildFilesSearch <-
    findFilesByFilenameAndRef (lit "build.gradle") (targetBranch this)
                              (root_path this) ;;
  dependenciesSearch <-
    findFilesByFilenameAndRef (lit "dependencies.properties")
                              (targetBranch this) (root_path this) ;;
  pomFiles <- await pomFilesSearch ;;
  let updates :=
    forEach pomFiles
      (fun updates p => push updates (java_update options (addPath this p)))
      updates in
  buildFiles <- await buildFilesSearch ;;
  let updates :=
    forEach buildFiles
      (fun updates p => push updates (java_update options (addPath this p)))
      updates in
  dependenciesFiles <- await dependenciesSearch ;;
  let updates :=
    forEach dependenciesFiles
      (fun updates p => push updates (java_update options (addPath this p)))
      updates in
  let updates :=
    forEach (extraFiles this)
      (fun updates extraFile =>
         match extraFile with
         | ExtraObject _ => updates
         | ExtraPath p => push updates (java_update options p)
         end)
      updates in
  let updates :=
    if negb (isSnapshot options) && negb (skipChangelog this)
    then push updates
           {| path := addPath this (changelogPath this);
              createIfMissing := true;
              cachedFileContents := None;
              updater := Changelog version (changelogEntry options) |}
    else updates in
  ret updates.

Definition isPromotionNote (note : Note) : bool :=
  str_eqb (title note) (lit "RELEASE AS") && str_eqb (text note) (lit "1.0.0").

Definition isPromotionCommit (commit : ConventionalCommit) : bool :=
  existsb isPromotionNote (notes commit).

(** The commit with its notes replaced. *)
Definition with_notes (commit : ConventionalCommit) (ns : list Note)
  : ConventionalCommit :=
  {| type := type commit;
     bareMessage := bareMessage commit;
     message := message commit;
     breaking := breaking commit;
     scope := scope commit;
     notes := ns;
     files := files commit;
     references := references commit;
     sha := sha commit |}.

(** The first loop of [updateVersionsMap], over the pair of its two local
    variables [isPromotion] and [modifiedCommits]. *)
Definition partition_commits (conventionalCommits : list ConventionalCommit)
  : bool * list ConventionalCommit :=
  forEach conventionalCommits
    (fun '(isPromotion, modifiedCommits) commit =>
       if isPromotionCommit commit
       then (true,
             push modifiedCommits
               (with_notes commit
                  (filter (fun note => negb (isPromotionNote note))
                          (notes commit))))
       else (isPromotion, push modifiedCommits commit))
    (false, []).

(** The body of the second loop, for one key. *)
Definition update_version (isPromotion : bool)
           (modifiedCommits : list ConventionalCommit)
           (versionsMap : VersionsMap) (versionKey : jsstring)
  : M VersionsMap :=
  match Map.get versionsMap versionKey with
  | None =>
      logger_warn (lit "didn't find version for " ++ versionKey) ;;;
      ret versionsMap
  | Some version =>
      if isPromotion && isStableArtifact versionKey
      then ret (Map.set versionsMap versionKey (Version_parse (lit "1.0.0")))
      else
        newVersion <- bump version modifiedCommits ;;
        ret (Map.set versionsMap versionKey newVersion)
  end.

(** The map is changed in place; the loop never adds a key, so that the keys
    it goes through are those the map had when it started. *)
Definition updateVersionsMap (versionsMap : VersionsMap)
           (conventionalCommits : list ConventionalCommit) : M VersionsMap :=
  let '(isPromotion, modifiedCommits) :=
    partition_commits conventionalCommits in
  for_of (Map.keys versionsMap)
         (update_version isPromotion modifiedCommits)
         versionsMap.

Definition initialReleaseVersion : Version := Version_parse (lit "0.1.0").

(** *** Definitions used to state the properties *)

(** A commit with its promotion notes removed. *)
Definition strip_promotion (commit : ConventionalCommit) : ConventionalCommit :=
  with_notes commit
    (filter (fun note => negb (str_eqb (title note) (lit "RELEASE AS")
                               && str_eqb (text note) (lit "1.0.0")))
            (notes commit)).

(** The entries of [extraFiles] that are paths. *)
Fixpoint plain_paths (es : list ExtraFile) : list jsstring :=
  match es with
  | [] => []
  | ExtraPath p :: es' => p :: plain_paths es'
  | ExtraObject _ :: es' => plain_paths es'
  end.

Definition is_changelog (u : Update) : bool :=
  match updater u with
  | Changelog _ _ => true
  | _ => false
  end.

(** The descriptors of the plan, by kind. *)
Definition registry_update (this : JavaYoshi) (options : JavaBuildUpdatesOption)
  : Update :=
  {| path := addPath this (lit "versions.txt");
     createIfMissing := false;
     cachedFileContents := versionsContent this;
     updater := VersionsManifest (newVersion options) (versionsMap options) |}.

Definition changelog_update (this : JavaYoshi) (options : JavaBuildUpdatesOption)
  : Update :=
  {| path := addPath this (changelogPath this);
     createIfMissing := true;
     cachedFileContents := None;
     updater := Changelog (newVersion options) (changelogEntry options) |}.

(** The requests of the three searches of [buildUpdates]. *)
Definition search_request (this : JavaYoshi) (filename : jsstring) : Request :=
  FindFilesByFilenameAndRef filename (targetBranch this) (root_path this).

(** The plan [buildUpdates] returns when the three searches answer. *)
Definition plan (this : JavaYoshi) (options : JavaBuildUpdatesOption)
           (pomFiles buildFiles dependenciesFiles : list jsstring)
  : list Update :=
  [registry_update this options]
  ++ map (fun p => java_update options (addPath this p)) pomFiles
  ++ map (fun p => java_update options (addPath this p)) buildFiles
  ++ map (fun p => java_update options (addPath this p)) dependenciesFiles
  ++ map (java_update options) (plain_paths (extraFiles this))
  ++ (if negb (isSnapshot options) && negb (skipChangelog this)
      then [changelog_update this options]
      else []).

(** *** Definitions used to state further properties *)

(** What the second loop of [updateVersionsMap] makes of one entry. *)
Definition next_entry (isPromotion : bool)
           (modifiedCommits : list ConventionalCommit)
           (entry : jsstring * Version) : jsstring * Version :=
  (fst entry,
   if isPromotion && isStableArtifact (fst entry)
   then Version_parse (lit "1.0.0")
   else versioningStrategy_bump (snd entry) modifiedCommits).

(** The calls of the versioning strategy that loop makes, in order. *)
Fixpoint bump_calls (isPromotion : bool)
         (modifiedCommits : list ConventionalCommit)
         (m : VersionsMap) : list BumpCall :=
  match m with
  | [] => []
  | (k, v) :: m' =>
      if isPromotion && isStableArtifact k
      then bump_calls isPromotion modifiedCommits m'
      else {| bump_version := v; bump_commits := modifiedCommits |}
           :: bump_calls isPromotion modifiedCommits m'
  end.

(** The world with more calls of the versioning strategy logged. *)
Definition with_bumps (w : World) (calls : list BumpCall) : World :=
  {| this := this w;
     requests := requests w;
     warnings := warnings w;
     bumps := bumps w ++ calls |}.

(** The world with more requests sent. *)
Definition with_requests (w : World) (sent : list Request) : World :=
  {| this := this w;
     requests := requests w ++ sent;
     warnings := warnings w;
     bumps := bumps w |}.

(** The world with the registry content held by the instance. *)
Definition with_content (w : World) (c : GitHubFileContents) : World :=
  {| this := set_versionsContent (this w) c;
     requests := requests w;
     warnings := warnings w;
     bumps := bumps w |}.

(** The request [getVersionsContent] sends. *)
Definition registry_request (this : JavaYoshi) : Request :=
  GetFileContentsOnBranch (addPath this (lit "versions.txt"))
                          (targetBranch this).

(** The error [getVersionsContent] throws for an error of the backend. *)
Definition translate_error (this : JavaYoshi) (err : Error) : Error :=
  if instanceof_FileNotFoundError err
  then MissingRequiredFileError
         (addPath this (lit "versions.txt")) (lit "JavaYoshi")
         (owner (repository this) ++ lit "/" ++ repo (repository this))
  else err.

(** The three requests of [buildUpdates], in the order they leave. *)
Definition search_requests (this : JavaYoshi) : list Request :=
  [search_request this (lit "pom.xml");
   search_request this (lit "build.gradle");
   search_request this (lit "dependencies.properties")].

(** What every descriptor of a plan satisfies, by updater. *)
Definition descriptor_ok (this : JavaYoshi) (options : JavaBuildUpdatesOption)
           (u : Update) : Prop :=
  match updater u with
  | VersionsManifest v m =>
      v = newVersion options /\ m = versionsMap options /\
      createIfMissing u = false /\
      cachedFileContents u = versionsContent this
  | JavaUpdate v m s =>
      v = newVersion options /\ m = versionsMap options /\
      s = isSnapshot options /\
      createIfMissing u = false /\ cachedFileContents u = None
  | Changelog v e =>
      v = newVersion options /\ e = changelogEntry options /\
      createIfMissing u = true /\ cachedFileContents u = None /\
      path u = addPath this (changelogPath this)
  end.
Example isStableArtifact_core : isStableArtifact (lit "core") = true.
Proof. reflexivity. Qed.
Example isStableArtifact_core_v2 : isStableArtifact (lit "core-v2") = true.
Proof. reflexivity. Qed.
Example isStableArtifact_core_v2beta : isStableArtifact (lit "core-v2beta") = false.
Proof. reflexivity. Qed.
Example isStableArtifact_core_v2_beta : isStableArtifact (lit "core-v2-beta") = true.
Proof. reflexivity. Qed.
Example isStableArtifact_newline :
  isStableArtifact (lit "core-v2" ++ [10%N] ++ lit "beta") = true.
Proof. reflexivity. Qed.
Example isStableArtifact_v23 : isStableArtifact (lit "core-v23") = true.
Proof. reflexivity. Qed.
Example isStableArtifact_v2_v3beta : isStableArtifact (lit "core-v2-v3beta") = false.
Proof. reflexivity. Qed.

(* ================================================================= *)
(** ** The greedy quantifier *)

Section Greedy.
Variable R : Type.
Variable p : char -> bool.
Implicit Types (k : nat -> jsstring -> option R) (s : jsstring).

  (** When every way of giving characters back is refused, so is the whole. *)
Lemma greedy_none k s : forall i,
    (forall j, j <= run p s -> k (i + j) (skipn j s) = None) ->
    greedy p i s k = None.
  Proof.
    induction s as [|c s' IH]; intros i H; simpl.
    - specialize (H 0 (Nat.le_refl _)). now rewrite Nat.add_0_r in H.
    - assert (H0 : k i (c :: s') = None).
      { specialize (H 0 (Nat.le_0_l _)). now rewrite Nat.add_0_r in H. }
      destruct (p c) eqn:Hc; [|exact H0].
      rewrite IH; [exact H0|].
      intros j Hj. specialize (H (S j)). simpl in H. rewrite Hc in H.
      replace (S i + j) with (i + S j) by lia. apply H. lia.
  Qed.

  (** The longest accepted prefix wins. *)
Lemma greedy_first k s : forall i j0 r,
    j0 <= run p s ->
    (forall j, j0 < j <= run p s -> k (i + j) (skipn j s) = None) ->
    k (i + j0) (skipn j0 s) = Some r ->
    greedy p i s k = Some r.
  Proof.
    induction s as [|c s' IH]; intros i j0 r Hle Hlater Hj0; simpl in *.
    - assert (j0 = 0) by lia; subst. now rewrite Nat.add_0_r in Hj0.
    - destruct (p c) eqn:Hc.
      + destruct j0 as [|j0].
        * rewrite greedy_none.
          -- now rewrite Nat.add_0_r in Hj0.
          -- intros j Hj. specialize (Hlater (S j)). simpl in Hlater.
             replace (S i + j) with (i + S j) by lia. apply Hlater. lia.
        * rewrite (IH (S i) j0 r); auto.
          -- lia.
          -- intros j Hj. specialize (Hlater (S j)). simpl in Hlater.
             replace (S i + j) with (i + S j) by lia. apply Hlater. lia.
          -- simpl in Hj0. now replace (S i + j0) with (i + S j0) by lia.
      + assert (j0 = 0) by lia; subst. now rewrite Nat.add_0_r in Hj0.
  Qed.

  (** A continuation that wants the end of the input forces the quantifier
      to read everything. *)
Lemma greedy_to_end k s : forall i,
    (forall i' c s', k i' (c :: s') = None) ->
    greedy p i s k = if forallb p s then k (i + length s) [] else None.
  Proof.
    induction s as [|c s' IH]; intros i Hk; simpl.
    - now rewrite Nat.add_0_r.
    - destruct (p c); simpl; [|apply Hk].
      rewrite IH by assumption. rewrite Nat.add_succ_r. simpl.
      destruct (forallb p s'); [|apply Hk].
      destruct (k (S (i + length s')) []); [reflexivity|apply Hk].
  Qed.
End Greedy.

(* ================================================================= *)
(** ** The two patterns *)

Lemma isDigit_notHyphen c : isDigit c = true -> notHyphen c = true.
Proof.
  unfold isDigit, notHyphen, hyphen. intros H.
  apply andb_prop in H as [H1 H2].
  apply N.leb_le in H1. apply negb_true_iff, N.eqb_neq. lia.
Qed.

Lemma isDigit_dot c : isDigit c = true -> dot c = true.
Proof.
  unfold isDigit, dot, isLineTerminator. intros H.
  apply andb_prop in H as [H1 H2].
  apply N.leb_le in H1. apply N.leb_le in H2.
  apply negb_true_iff.
  repeat (apply orb_false_iff; split); apply N.eqb_neq; lia.
Qed.

Lemma skipn_run_forallb (p q : char -> bool) s :
  (forall c, p c = true -> q c = true) ->
  forall j, j <= run p s -> forallb q (skipn j s) = forallb q s.
Proof.
  intros Hpq. induction s as [|c s' IH]; intros j Hj; simpl in *.
  - now destruct j.
  - destruct j as [|j]; [reflexivity|].
    destruct (p c) eqn:Hc; [|lia].
    simpl. rewrite (Hpq _ Hc). simpl. apply IH. lia.
Qed.

Lemma length_skipn_add (s : jsstring) j :
  j <= length s -> j + length (skipn j s) = length s.
Proof. intros H. rewrite length_skipn. lia. Qed.

Lemma run_le_length p s : run p s <= length s.
Proof. induction s as [|c s' IH]; simpl; [lia|destruct (p c); lia]. Qed.

(** A pattern anchored at the start can only match at index 0. *)
Lemma exec_from_Bos r s : forall i, exec_from (Bos >> r) (S i) s = None.
Proof. induction s as [|c s' IH]; intros i; simpl; auto. Qed.

Lemma str_match_Bos r s :
  str_match s (Bos >> r) =
  match rmatch r (MState 0 s []) Some with
  | Some st => Some (MatchResult 0 (firstn (pos st - 0) s) (caps st))
  | None => None
  end.
Proof.
  unfold str_match. destruct s as [|c s']; simpl.
  - reflexivity.
  - destruct (rmatch r _ _); [reflexivity|apply exec_from_Bos].
Qed.

(** What the second pattern does after the letter v: digits, then the
    captured rest, which must reach the end without a line terminator. *)
Lemma version_tail_match i t caps0 :
  rmatch (Plus isDigit >> Group 1 (Star dot) >> Eos) (MState i t caps0) Some =
  match t with
  | d :: t' =>
      if isDigit d && forallb dot t'
      then Some (MState (S i + length t') []
                        ((1, skipn (run isDigit t') t') :: caps0))
      else None
  | [] => None
  end.
Proof.
  destruct t as [|d t']; simpl; [reflexivity|].
  destruct (isDigit d); simpl; [|reflexivity].
  set (k := fun (i0 : nat) (s : jsstring) => _).
  assert (Hk : forall j, j <= run isDigit t' ->
            k (S i + j) (skipn j t') =
            if forallb dot t'
            then Some (MState (S i + length t') []
                              ((1, skipn j t') :: caps0))
            else None).
  { intros j Hj. unfold k. simpl.
    rewrite greedy_to_end by (intros; reflexivity).
    rewrite (skipn_run_forallb isDigit dot t' isDigit_dot Hj).
    destruct (forallb dot t'); [|reflexivity].
    pose proof (run_le_length isDigit t').
    pose proof (@length_skipn_add t' j ltac:(lia)).
    replace (S (i + j) + length (skipn j t') - S (i + j))
      with (length (skipn j t')) by lia.
    rewrite firstn_all.
    do 2 f_equal. lia. }
  destruct (forallb dot t') eqn:Hdot.
  - apply greedy_first with (j0 := run isDigit t'); [lia|intros; lia|].
    now rewrite Hk.
  - apply greedy_none. intros j Hj. now rewrite Hk.
Qed.

Lemma version_match_truthy g :
  match str_match g VERSION_REGEX with
  | Some versionMatch => truthy (capture versionMatch 1)
  | None => false
  end = qualified g.
Proof.
  unfold VERSION_REGEX. rewrite str_match_Bos.
  destruct g as [|c g']; [reflexivity|].
  change (rmatch (Lit letter_v >> ?r) (MState 0 (c :: g') []) Some)
    with (if N.eqb c letter_v then rmatch r (MState 1 g' []) Some else None).
  unfold qualified.
  destruct (N.eqb c letter_v); simpl andb; [|now destruct g'].
  rewrite version_tail_match.
  destruct g' as [|d t]; [reflexivity|].
  destruct (isDigit d && forallb dot t); reflexivity.
Qed.

(** What the first pattern does once the leading ".*" has stopped: a hyphen,
    then the captured group, which must reach the end of the key. *)
Lemma versioned_tail_match i s caps0 :
  rmatch (Lit hyphen >>
          Group 1 (Lit letter_v >> Plus isDigit >> Star notHyphen) >> Eos)
         (MState i s caps0) Some =
  match s with
  | h :: t =>
      if N.eqb h hyphen && (starts_version t && forallb notHyphen t)
      then Some (MState (S i + length t) [] ((1, t) :: caps0))
      else None
  | [] => None
  end.
Proof.
  destruct s as [|h t]; [reflexivity|].
  cbn [rmatch rest pos JS.caps].
  destruct (N.eqb h hyphen); [|reflexivity].
  destruct t as [|c t1]; [reflexivity|].
  cbn [rmatch rest pos JS.caps andb starts_version].
  destruct (N.eqb c letter_v) eqn:Hc; [|now destruct t1].
  destruct t1 as [|d t2]; [reflexivity|].
  cbn [rmatch rest pos JS.caps andb].
  destruct (isDigit d) eqn:Hd; [|reflexivity].
  assert (Hv : notHyphen c = true).
  { apply N.eqb_eq in Hc. now subst. }
  cbn [forallb]. rewrite Hv, (isDigit_notHyphen _ Hd). cbn [andb].
  set (k := fun (i0 : nat) (s : jsstring) => _).
  assert (Hk : forall j, j <= run isDigit t2 ->
            k (S (S (S i)) + j) (skipn j t2) =
            if forallb notHyphen t2
            then Some (MState (S i + length (c :: d :: t2)) []
                              ((1, c :: d :: t2) :: caps0))
            else None).
  { intros j Hj. unfold k.
    rewrite greedy_to_end by (intros; reflexivity).
    rewrite (skipn_run_forallb isDigit notHyphen t2 isDigit_notHyphen Hj).
    destruct (forallb notHyphen t2); [|reflexivity].
    pose proof (run_le_length isDigit t2).
    pose proof (@length_skipn_add t2 j ltac:(lia)).
    cbn [pos rest JS.caps].
    replace (S (S (S i)) + j + length (skipn j t2) - S i)
      with (length (c :: d :: t2)) by (cbn [List.length]; lia).
    rewrite firstn_all.
    do 2 f_equal. cbn [List.length]. lia. }
  destruct (forallb notHyphen t2) eqn:Hnh.
  - apply greedy_first with (j0 := run isDigit t2); [lia|intros; lia|].
    now rewrite Hk.
  - apply greedy_none. intros j Hj. now rewrite Hk.
Qed.

Lemma forallb_run_app p (b s : jsstring) :
  forallb p b = true -> length b <= run p (b ++ s).
Proof.
  induction b as [|c b' IH]; simpl; [lia|].
  intros H. apply andb_prop in H as [Hc Hb]. rewrite Hc.
  specialize (IH Hb). lia.
Qed.

Lemma forallb_false_run_app p (b s : jsstring) :
  forallb p b = false -> run p (b ++ s) < length b.
Proof.
  induction b as [|c b' IH]; simpl; [discriminate|].
  destruct (p c); simpl; [|lia].
  intros H. specialize (IH H). lia.
Qed.

(** A suffix of a hyphen-free text does not start with a hyphen. *)
Lemma skipn_notHyphen_head t j :
  forallb notHyphen t = true ->
  match skipn j t with
  | h :: _ => N.eqb h hyphen = false
  | [] => True
  end.
Proof.
  revert j. induction t as [|c t' IH]; intros j H.
  - now destruct j.
  - simpl in H. apply andb_prop in H as [Hc Ht].
    destruct j as [|j]; simpl.
    + now apply negb_true_iff in Hc.
    + now apply IH.
Qed.

(** Away from the last hyphen of the key, the rest of the first pattern
    fails: before it the group would have to swallow a hyphen, after it
    there is no hyphen to start from. *)
Lemma versioned_tail_elsewhere base t j i :
  forallb notHyphen t = true ->
  j <> length base ->
  rmatch (Lit hyphen >>
          Group 1 (Lit letter_v >> Plus isDigit >> Star notHyphen) >> Eos)
         (MState i (skipn j (base ++ hyphen :: t)) []) Some = None.
Proof.
  intros Ht Hj. rewrite versioned_tail_match.
  destruct (Nat.lt_ge_cases j (length base)) as [Hlt|Hge].
  - rewrite skipn_app.
    replace (j - length base) with 0 by lia. cbn [skipn].
    destruct (skipn j base) as [|h u] eqn:Hu.
    + apply (f_equal (@List.length _)) in Hu. rewrite length_skipn in Hu.
      simpl in Hu. lia.
    + cbn [app].
      replace (forallb notHyphen (u ++ hyphen :: t)) with false.
      * now rewrite !andb_false_r.
      * rewrite forallb_app. cbn [forallb]. unfold notHyphen at 2.
        rewrite N.eqb_refl. cbn [negb andb]. now rewrite andb_false_r.
  - rewrite skipn_app, skipn_all2 by lia. cbn [app].
    destruct (j - length base) as [|j'] eqn:Hj'; [lia|]. cbn [skipn].
    pose proof (skipn_notHyphen_head t j' Ht) as Hh.
    destruct (skipn j' t) as [|h u]; [reflexivity|].
    now rewrite Hh.
Qed.

Lemma rmatch_Star_dot r s :
  rmatch (Star dot >> r) (MState 0 s []) Some =
  greedy dot 0 s (fun i s0 => rmatch r (MState i s0 []) Some).
Proof. reflexivity. Qed.

Lemma versioned_match_last_hyphen base t :
  forallb notHyphen t = true ->
  rmatch (Star dot >> Lit hyphen >>
          Group 1 (Lit letter_v >> Plus isDigit >> Star notHyphen) >> Eos)
         (MState 0 (base ++ hyphen :: t) []) Some =
  if forallb dot base && starts_version t
  then Some (MState (S (length base) + length t) [] [(1, t)])
  else None.
Proof.
  intros Ht. rewrite rmatch_Star_dot.
  destruct (forallb dot base && starts_version t) eqn:Hc.
  - apply andb_prop in Hc as [Hb Hs].
    apply greedy_first with (j0 := length base).
    + now apply forallb_run_app.
    + intros j Hj. apply versioned_tail_elsewhere; [assumption|lia].
    + rewrite versioned_tail_match.
      rewrite skipn_app, skipn_all, Nat.sub_diag. cbn [app skipn].
      now rewrite N.eqb_refl, Hs, Ht.
  - apply greedy_none. intros j Hj.
    destruct (Nat.eq_dec j (length base)) as [->|Hne].
    + rewrite versioned_tail_match.
      rewrite skipn_app, skipn_all, Nat.sub_diag. cbn [app skipn].
      apply andb_false_iff in Hc as [Hb|Hs].
      * apply forallb_false_run_app with (s := hyphen :: t) in Hb. lia.
      * now rewrite Hs, andb_false_r.
    + now apply versioned_tail_elsewhere.
Qed.

Lemma versioned_match_no_hyphen key :
  forallb notHyphen key = true ->
  str_match key VERSIONED_ARTIFACT_REGEX = None.
Proof.
  intros Hk. unfold VERSIONED_ARTIFACT_REGEX.
  rewrite str_match_Bos, rmatch_Star_dot.
  rewrite greedy_none; [reflexivity|].
  intros j _. rewrite versioned_tail_match.
  pose proof (skipn_notHyphen_head key j Hk) as Hh.
  destruct (skipn j key) as [|h u]; [reflexivity|].
  now rewrite Hh.
Qed.

(** Whenever the first pattern matches, its group is set: [match[1]] is a
    string, never [undefined]. *)
Lemma str_match_versioned_inv key m :
  str_match key VERSIONED_ARTIFACT_REGEX = Some m ->
  exists g, lookup_group 1 (groups m) = Some g.
Proof.
  unfold VERSIONED_ARTIFACT_REGEX. rewrite str_match_Bos, rmatch_Star_dot.
  destruct (greedy _ _ _ _) as [st|] eqn:Hg; [|discriminate].
  intros [= <-]. cbn [groups].
  (* every accepting continuation went through [versioned_tail_match] *)
  assert (H : forall s i, greedy dot i s
            (fun i0 s0 => rmatch (Lit hyphen >>
               Group 1 (Lit letter_v >> Plus isDigit >> Star notHyphen) >> Eos)
               (MState i0 s0 []) Some) = Some st ->
            exists g, lookup_group 1 (JS.caps st) = Some g).
  { clear. induction s as [|c s' IH]; intros i; cbn [greedy].
    - rewrite versioned_tail_match. discriminate.
    - assert (Hhere : rmatch (Lit hyphen >>
               Group 1 (Lit letter_v >> Plus isDigit >> Star notHyphen) >> Eos)
               (MState i (c :: s') []) Some = Some st ->
               exists g, lookup_group 1 (JS.caps st) = Some g).
      { rewrite versioned_tail_match.
        destruct (_ && _); [|discriminate].
        intros [= <-]. simpl. eauto. }
      destruct (dot c); [|exact Hhere].
      destruct (greedy dot (S i) s' _) eqn:Hin.
      + intros [= ->]. eapply IH; eauto.
      + exact Hhere. }
  eapply H. exact Hg.
Qed.

(** [isStableArtifact] is decided by the text after the last hyphen. *)
Lemma isStableArtifact_last_hyphen base t :
  forallb notHyphen t = true ->
  isStableArtifact (base ++ hyphen :: t) =
  negb (forallb dot base && qualified t).
Proof.
  intros Ht. unfold isStableArtifact, VERSIONED_ARTIFACT_REGEX.
  rewrite str_match_Bos, versioned_match_last_hyphen by assumption.
  destruct (forallb dot base) eqn:Hb; cbn [andb].
  - destruct (starts_version t) eqn:Hs.
    + unfold capture at 1. cbn [groups JS.caps lookup_group Nat.eqb].
      rewrite <- version_match_truthy.
      destruct (str_match t VERSION_REGEX) as [vm|]; [|reflexivity].
      now destruct (truthy (capture vm 1)).
    + destruct t as [|c [|d t']]; try reflexivity.
      unfold qualified. cbn [starts_version] in Hs. now rewrite Hs.
  - reflexivity.
Qed.

Lemma isStableArtifact_no_hyphen key :
  forallb notHyphen key = true -> isStableArtifact key = true.
Proof.
  intros H. unfold isStableArtifact.
  now rewrite versioned_match_no_hyphen.
Qed.

Lemma last_hyphen_split (key : jsstring) :
  forallb notHyphen key = true \/
  exists base t, key = base ++ hyphen :: t /\ forallb notHyphen t = true.
Proof.
  induction key as [|c key' IH]; [now left|].
  destruct IH as [Hno|(base & t & -> & Ht)].
  - destruct (notHyphen c) eqn:Hc.
    + left. simpl. now rewrite Hc.
    + right. exists [], key'. split; [|assumption].
      apply negb_false_iff, N.eqb_eq in Hc. now subst.
  - right. exists (c :: base), t. now split.
Qed.

Lemma run_app_stop (ds q : jsstring) :
  forallb isDigit ds = true -> head_isDigit q = false ->
  run isDigit (ds ++ q) = length ds.
Proof.
  intros Hds Hq. induction ds as [|d ds' IH]; cbn [app forallb] in *.
  - destruct q as [|c q']; [reflexivity|].
    cbn [head_isDigit] in Hq. cbn [run]. now rewrite Hq.
  - apply andb_prop in Hds as [Hd Hds]. cbn [run List.length].
    rewrite Hd. f_equal. auto.
Qed.

Lemma firstn_run_forallb p (s : jsstring) : forallb p (firstn (run p s) s) = true.
Proof.
  induction s as [|c s' IH]; simpl; [reflexivity|].
  destruct (p c) eqn:Hc; simpl; [now rewrite Hc|reflexivity].
Qed.

Lemma skipn_run_head (s : jsstring) :
  head_isDigit (skipn (run isDigit s) s) = false.
Proof.
  induction s as [|c s' IH]; [reflexivity|]. cbn [run].
  destruct (isDigit c) eqn:Hc; cbn [skipn head_isDigit]; assumption.
Qed.

Lemma forallb_skipn (p : char -> bool) (s : jsstring) j :
  forallb p s = true -> forallb p (skipn j s) = true.
Proof.
  revert j. induction s as [|c s' IH]; intros [|j] H; simpl in *; auto.
  apply andb_prop in H as [_ H]. auto.
Qed.

Lemma isStableArtifact_false_iff key :
  isStableArtifact key = false <-> prestable_form key.
Proof.
  split.
  - intros H.
    destruct (last_hyphen_split key) as [Hno|(base & t & -> & Ht)].
    + rewrite isStableArtifact_no_hyphen in H by assumption. discriminate.
    + rewrite isStableArtifact_last_hyphen in H by assumption.
      apply negb_false_iff, andb_prop in H as [Hb Hq].
      destruct t as [|c [|d t']]; try discriminate.
      unfold qualified in Hq.
      apply andb_prop in Hq as [Hq Htr]. apply andb_prop in Hq as [Hq Hdot].
      apply andb_prop in Hq as [Hc Hd]. apply N.eqb_eq in Hc. subst c.
      exists base, (d :: firstn (run isDigit t') t'),
             (skipn (run isDigit t') t').
      repeat split.
      * change (lit "-v") with [hyphen; letter_v]. cbn [app].
        now rewrite firstn_skipn.
      * discriminate.
      * cbn [forallb]. now rewrite Hd, firstn_run_forallb.
      * intros E. now rewrite E in Htr.
      * apply forallb_skipn. cbn [forallb] in Ht.
        apply andb_prop in Ht as [_ Ht]. now apply andb_prop in Ht as [_ Ht].
      * apply skipn_run_head.
      * assumption.
      * now apply forallb_skipn.
  - intros (base & ds & q & -> & Hne & Hds & Hq & Hnh & Hhd & Hb & Hdq).
    change (lit "-v") with [hyphen; letter_v]. cbn [app].
    destruct ds as [|d ds']; [contradiction|].
    cbn [forallb] in Hds. apply andb_prop in Hds as [Hd Hds].
    rewrite isStableArtifact_last_hyphen.
    + rewrite Hb. cbn [andb app]. unfold qualified.
      rewrite N.eqb_refl, Hd. cbn [andb].
      rewrite run_app_stop, skipn_app, skipn_all, Nat.sub_diag by assumption.
      cbn [skipn app]. rewrite forallb_app, Hdq.
      replace (forallb dot ds') with true.
      * destruct q; [contradiction|reflexivity].
      * symmetry. apply forallb_forall. intros c Hc.
        apply isDigit_dot. rewrite forallb_forall in Hds. auto.
    + cbn [app forallb]. rewrite (isDigit_notHyphen _ Hd).
      rewrite forallb_app, Hnh.
      replace (forallb notHyphen ds') with true; [reflexivity|].
      symmetry. apply forallb_forall. intros c Hc.
      apply isDigit_notHyphen. rewrite forallb_forall in Hds. auto.
Qed.

(* ================================================================= *)
(** ** Strings and maps *)

Lemma str_eqb_refl a : str_eqb a a = true.
Proof. induction a as [|x a' IH]; simpl; [reflexivity|]. now rewrite N.eqb_refl. Qed.

Lemma str_eqb_eq a b : str_eqb a b = true <-> a = b.
Proof.
  split; [|intros ->; apply str_eqb_refl].
  revert b. induction a as [|x a' IH]; intros [|y b']; simpl; try easy.
  intros H. apply andb_prop in H as [Hx Ha].
  apply N.eqb_eq in Hx. f_equal; auto.
Qed.

Lemma str_eqb_neq a b : str_eqb a b = false <-> a <> b.
Proof.
  rewrite <- str_eqb_eq. destruct (str_eqb a b); split; congruence.
Qed.

Section MapFacts.
Variable V : Type.
Implicit Types (m : Map.t V) (k : jsstring) (v : V).

Lemma get_in_keys m k : In k (Map.keys m) -> exists v, Map.get m k = Some v.
Proof.
  induction m as [|[k' v'] m' IH]; simpl; [easy|].
  intros [->|H].
  - rewrite str_eqb_refl. eauto.
  - destruct (str_eqb k' k); eauto.
Qed.

Lemma get_some_in_keys m k v : Map.get m k = Some v -> In k (Map.keys m).
Proof.
  induction m as [|[k' v'] m' IH]; simpl; [easy|].
  destruct (str_eqb k' k) eqn:E.
  - apply str_eqb_eq in E. auto.
  - auto.
Qed.

(** Setting a key that is present leaves the keys and their order alone. *)
Lemma keys_set_present m k v v0 :
  Map.get m k = Some v0 -> Map.keys (Map.set m k v) = Map.keys m.
Proof.
  induction m as [|[k' v'] m' IH]; simpl; [easy|].
  destruct (str_eqb k' k); simpl; [reflexivity|].
  intros H. f_equal. auto.
Qed.

Lemma get_set_same m k v : Map.get (Map.set m k v) k = Some v.
Proof.
  induction m as [|[k' v'] m' IH]; simpl.
  - now rewrite str_eqb_refl.
  - destruct (str_eqb k' k) eqn:E; simpl; now rewrite E.
Qed.

Lemma get_set_other m k k0 v :
  k0 <> k -> Map.get (Map.set m k v) k0 = Map.get m k0.
Proof.
  intros Hne. induction m as [|[k' v'] m' IH]; simpl.
  - destruct (str_eqb k k0) eqn:E; [|reflexivity].
    apply str_eqb_eq in E. congruence.
  - destruct (str_eqb k' k) eqn:E; simpl.
    + apply str_eqb_eq in E. subst k'.
      destruct (str_eqb k k0) eqn:E0; [|reflexivity].
      apply str_eqb_eq in E0. congruence.
    + now rewrite IH.
Qed.
End MapFacts.

Lemma forEach_push (A B : Type) (f : A -> B) (xs : list A) : forall acc,
  forEach xs (fun acc x => push acc (f x)) acc = acc ++ map f xs.
Proof.
  unfold forEach, push.
  induction xs as [|x xs' IH]; intros acc; simpl.
  - now rewrite app_nil_r.
  - now rewrite IH, <- app_assoc.
Qed.

(* ================================================================= *)
(** ** Commits *)

Lemma postProcessCommits_empty : postProcessCommits [] = [fake_commit].
Proof. reflexivity. Qed.

Lemma postProcessCommits_nonempty c cs :
  postProcessCommits (c :: cs) = c :: cs.
Proof. reflexivity. Qed.

Lemma isPromotionNote_iff note :
  isPromotionNote note = true <->
  title note = lit "RELEASE AS" /\ text note = lit "1.0.0".
Proof.
  unfold isPromotionNote. now rewrite andb_true_iff, !str_eqb_eq.
Qed.

Lemma isPromotionCommit_iff commit :
  isPromotionCommit commit = true <->
  exists note, In note (notes commit) /\
               title note = lit "RELEASE AS" /\ text note = lit "1.0.0".
Proof.
  unfold isPromotionCommit. rewrite existsb_exists.
  split; intros (note & Hin & H); exists note; split; auto;
    now apply isPromotionNote_iff.
Qed.

Lemma with_notes_same commit : with_notes commit (notes commit) = commit.
Proof. now destruct commit. Qed.

Lemma filter_no_promotion (ns : list Note) :
  existsb isPromotionNote ns = false ->
  filter (fun note => negb (isPromotionNote note)) ns = ns.
Proof.
  induction ns as [|n ns' IH]; simpl; [reflexivity|].
  intros H. apply orb_false_iff in H as [Hn Hns].
  rewrite Hn. simpl. f_equal. auto.
Qed.

(** A commit without a promotion note is pushed as it is, which is also what
    stripping it would give. *)
Lemma strip_promotion_id commit :
  isPromotionCommit commit = false -> strip_promotion commit = commit.
Proof.
  intros H. unfold strip_promotion.
  change (fun note => negb (str_eqb (title note) (lit "RELEASE AS")
                            && str_eqb (text note) (lit "1.0.0")))
    with (fun note => negb (isPromotionNote note)).
  rewrite filter_no_promotion by exact H. apply with_notes_same.
Qed.

Lemma strip_promotion_clean commit :
  isPromotionCommit (strip_promotion commit) = false.
Proof.
  unfold isPromotionCommit, strip_promotion. simpl.
  apply not_true_is_false. intros H.
  apply existsb_exists in H as (note & Hin & Hn).
  apply filter_In in Hin as [_ Hf].
  unfold isPromotionNote in Hn. rewrite Hn in Hf. discriminate.
Qed.

Lemma partition_commits_from (cs : list ConventionalCommit) : forall b acc,
  forEach cs
    (fun '(isPromotion, modifiedCommits) commit =>
       if isPromotionCommit commit
       then (true,
             push modifiedCommits
               (with_notes commit
                  (filter (fun note => negb (isPromotionNote note))
                          (notes commit))))
       else (isPromotion, push modifiedCommits commit))
    (b, acc)
  = (b || existsb isPromotionCommit cs, acc ++ map strip_promotion cs).
Proof.
  unfold forEach, push.
  induction cs as [|c cs' IH]; intros b acc; simpl.
  - now rewrite orb_false_r, app_nil_r.
  - destruct (isPromotionCommit c) eqn:Hc.
    + rewrite IH, <- app_assoc. simpl. now rewrite orb_true_r.
    + rewrite IH, <- app_assoc. simpl.
      now rewrite (strip_promotion_id _ Hc).
Qed.

Lemma partition_commits_eq cs :
  partition_commits cs =
  (existsb isPromotionCommit cs, map strip_promotion cs).
Proof. unfold partition_commits. now rewrite partition_commits_from. Qed.

(* ================================================================= *)
(** ** The version loop *)

(** One round of the loop: it ends normally, keeps the keys, touches no other
    key, promotes a stable key, and calls the versioning strategy with the
    modified commits only. *)
Lemma update_version_step isPromotion modifiedCommits m x w :
  exists m1 w1,
    update_version isPromotion modifiedCommits m x w = (Ok m1, w1) /\
    Map.keys m1 = Map.keys m /\
    (forall k, k <> x -> Map.get m1 k = Map.get m k) /\
    (isPromotion = true -> isStableArtifact x = true -> In x (Map.keys m) ->
     Map.get m1 x = Some (Version_parse (lit "1.0.0"))) /\
    exists calls,
      bumps w1 = bumps w ++ calls /\
      Forall (fun call => bump_commits call = modifiedCommits) calls.
Proof.
  unfold update_version.
  destruct (Map.get m x) as [version|] eqn:Hget.
  - destruct (isPromotion && isStableArtifact x) eqn:Hp.
    + eexists _, _. split; [reflexivity|].
      split; [eapply keys_set_present; eassumption|].
      split; [intros k Hk; now apply get_set_other|].
      split; [intros; apply get_set_same|].
      exists []. now rewrite app_nil_r.
    + eexists _, _. split; [reflexivity|].
      split; [eapply keys_set_present; eassumption|].
      split; [intros k Hk; now apply get_set_other|].
      split.
      * intros -> Hs _. simpl in Hp. congruence.
      * eexists [_]. split; [reflexivity|]. now constructor.
  - eexists _, _. split; [reflexivity|].
    split; [reflexivity|]. split; [reflexivity|].
    split.
    + intros _ _ Hin. apply get_in_keys in Hin as [v Hv]. congruence.
    + exists []. simpl. now rewrite app_nil_r.
Qed.

Lemma for_of_update_version isPromotion modifiedCommits ks : forall m w,
  exists m' w',
    for_of ks (update_version isPromotion modifiedCommits) m w = (Ok m', w') /\
    Map.keys m' = Map.keys m /\
    (forall k, isPromotion = true -> isStableArtifact k = true ->
       (In k ks /\ In k (Map.keys m)) \/
       Map.get m k = Some (Version_parse (lit "1.0.0")) ->
       Map.get m' k = Some (Version_parse (lit "1.0.0"))) /\
    exists calls,
      bumps w' = bumps w ++ calls /\
      Forall (fun call => bump_commits call = modifiedCommits) calls.
Proof.
  induction ks as [|x ks' IH]; intros m w.
  - exists m, w. split; [reflexivity|]. split; [reflexivity|].
    split.
    + intros k _ _ [[[] _]|H]. exact H.
    + exists []. now rewrite app_nil_r.
  - destruct (update_version_step isPromotion modifiedCommits m x w)
      as (m1 & w1 & Hstep & Hkeys1 & Hother & Hpromo & calls1 & Hb1 & Hc1).
    destruct (IH m1 w1)
      as (m' & w' & Hloop & Hkeys & Hinv & calls & Hb & Hc).
    exists m', w'. cbn [for_of]. unfold bind at 1. rewrite Hstep.
    split; [exact Hloop|].
    split; [congruence|].
    split.
    + intros k Hp Hs Hk. apply Hinv; auto.
      destruct (str_eqb x k) eqn:E.
      * apply str_eqb_eq in E. subst k. right. apply Hpromo; auto.
        destruct Hk as [[_ Hin]|Hget]; [exact Hin|].
        eapply get_some_in_keys; eassumption.
      * apply str_eqb_neq in E.
        destruct Hk as [[[Hx|Hin] Hm]|Hget].
        -- congruence.
        -- left. split; [exact Hin|]. now rewrite Hkeys1.
        -- right. rewrite Hother by congruence. exact Hget.
    + exists (calls1 ++ calls). split.
      * now rewrite Hb, Hb1, app_assoc.
      * apply Forall_app. now split.
Qed.

Lemma updateVersionsMap_eq M C :
  updateVersionsMap M C =
  for_of (Map.keys M)
         (update_version (existsb isPromotionCommit C) (map strip_promotion C))
         M.
Proof. unfold updateVersionsMap. now rewrite partition_commits_eq. Qed.

Lemma has_promotion_note C :
  (exists commit note,
      In commit C /\ In note (notes commit) /\
      title note = lit "RELEASE AS" /\ text note = lit "1.0.0") ->
  existsb isPromotionCommit C = true.
Proof.
  intros (commit & note & Hc & Hn & Ht & Hx).
  apply existsb_exists. exists commit. split; [exact Hc|].
  apply isPromotionCommit_iff. eauto.
Qed.

(* ================================================================= *)
(** ** Properties of [updateVersionsMap] *)

(** C1. Promotion: when some commit of [C] carries the note titled
    "RELEASE AS" with text "1.0.0", [updateVersionsMap M C] ends normally and
    the map it returns gives version 1.0.0 to every key of [M] that
    [isStableArtifact] classifies as stable, whatever the other commits are
    and whatever the versioning strategy computes. *)
Theorem updateVersionsMap_promotion M C w :
  (exists commit note,
      In commit C /\ In note (notes commit) /\
      title note = lit "RELEASE AS" /\ text note = lit "1.0.0") ->
  exists M' w',
    updateVersionsMap M C w = (Ok M', w') /\
    forall k, In k (Map.keys M) -> isStableArtifact k = true ->
              Map.get M' k = Some (Version_parse (lit "1.0.0")).
Proof.
  intros H. apply has_promotion_note in H.
  rewrite updateVersionsMap_eq, H.
  destruct (for_of_update_version true (map strip_promotion C)
                                  (Map.keys M) M w)
    as (M' & w' & Hrun & _ & Hinv & _).
  exists M', w'. split; [exact Hrun|].
  intros k Hk Hs. apply Hinv; auto.
Qed.

(** C2. Key-set invariance: [updateVersionsMap M C] always ends normally, and
    the map it returns has the keys of [M], in the same order: none added,
    none removed.  A key whose version cannot be found is skipped: the round
    of the loop logs a warning, leaves the map as it is and does not throw. *)
Theorem updateVersionsMap_keys M C w :
  (exists M' w',
      updateVersionsMap M C w = (Ok M', w') /\ Map.keys M' = Map.keys M) /\
  (forall isPromotion modifiedCommits (m : VersionsMap) k w0,
      Map.get m k = None ->
      update_version isPromotion modifiedCommits m k w0 =
      (Ok m, {| this := this w0;
                requests := requests w0;
                warnings := warnings w0
                            ++ [lit "didn't find version for " ++ k];
                bumps := bumps w0 |})).
Proof.
  split.
  - rewrite updateVersionsMap_eq.
    destruct (for_of_update_version (existsb isPromotionCommit C)
                (map strip_promotion C) (Map.keys M) M w)
      as (M' & w' & Hrun & Hkeys & _).
    eauto.
  - intros isPromotion modifiedCommits m k w0 Hget.
    unfold update_version. now rewrite Hget.
Qed.

(** One round of the loop on a key of the map: it calls the versioning
    strategy exactly once, with the modified commits, unless the key is
    promoted, and then not at all. *)
Lemma update_version_calls isPromotion modifiedCommits m x w :
  In x (Map.keys m) ->
  exists m1 w1,
    update_version isPromotion modifiedCommits m x w = (Ok m1, w1) /\
    Map.keys m1 = Map.keys m /\
    exists calls,
      bumps w1 = bumps w ++ calls /\
      map (@bump_commits) calls
      = if isPromotion && isStableArtifact x then [] else [modifiedCommits].
Proof.
  intros Hin. apply get_in_keys in Hin as [v Hv].
  unfold update_version. rewrite Hv.
  destruct (isPromotion && isStableArtifact x).
  - eexists _, _. split; [reflexivity|].
    split; [eapply keys_set_present; eassumption|].
    exists []. split; [now rewrite app_nil_r|reflexivity].
  - eexists _, _. split; [reflexivity|].
    split; [eapply keys_set_present; eassumption|].
    eexists [_]. split; reflexivity.
Qed.

Lemma for_of_update_version_calls isPromotion modifiedCommits ks :
  forall m w,
    (forall k, In k ks -> In k (Map.keys m)) ->
    exists m' w',
      for_of ks (update_version isPromotion modifiedCommits) m w
      = (Ok m', w') /\
      exists calls,
        bumps w' = bumps w ++ calls /\
        map (@bump_commits) calls
        = map (fun _ => modifiedCommits)
              (filter (fun k => negb (isPromotion && isStableArtifact k)) ks).
Proof.
  induction ks as [|x ks' IH]; intros m w Hks.
  - exists m, w. split; [reflexivity|].
    exists []. split; [now rewrite app_nil_r|reflexivity].
  - destruct (update_version_calls isPromotion modifiedCommits m x w)
      as (m1 & w1 & Hstep & Hkeys & calls1 & Hb1 & Hc1);
      [apply Hks; now left|].
    destruct (IH m1 w1) as (m' & w' & Hloop & calls & Hb & Hc).
    { intros k Hk. rewrite Hkeys. apply Hks. now right. }
    exists m', w'. cbn [for_of]. unfold bind at 1. rewrite Hstep.
    split; [exact Hloop|].
    exists (calls1 ++ calls). split.
    + now rewrite Hb, Hb1, app_assoc.
    + rewrite map_app, Hc1, Hc. cbn [filter].
      now destruct (isPromotion && isStableArtifact x).
Qed.

Lemma Forall_of_map_const (A B : Type) (f : A -> B) (b : B) (C : Type)
      (xs : list A) (ks : list C) :
  map f xs = map (fun _ => b) ks -> Forall (fun x => f x = b) xs.
Proof.
  revert ks. induction xs as [|x xs' IH]; intros [|k ks'] H;
    try discriminate; constructor.
  - now injection H.
  - injection H as _ H. eauto.
Qed.

(** C9. The commits handed to the versioning strategy: [updateVersionsMap M C]
    calls [bump] once for every key of [M] that is not promoted (every key
    when no commit of [C] is a promotion commit, the keys that are not
    stable otherwise) and for no other; each of these calls receives the
    list that has, for every commit of [C] and in the same order, that
    commit with its notes titled "RELEASE AS" with text "1.0.0" removed and
    its other notes and all its other fields kept; so no commit handed to
    [bump] carries a promotion note. *)
Theorem updateVersionsMap_bump_commits M C w :
  exists calls,
    bumps (snd (updateVersionsMap M C w)) = bumps w ++ calls /\
    map (@bump_commits) calls
    = map (fun _ => map strip_promotion C)
          (filter (fun k => negb (existsb isPromotionCommit C
                                  && isStableArtifact k))
                  (Map.keys M)) /\
    Forall2 (fun commit handed =>
               type handed = type commit /\
               bareMessage handed = bareMessage commit /\
               message handed = message commit /\
               breaking handed = breaking commit /\
               scope handed = scope commit /\
               files handed = files commit /\
               references handed = references commit /\
               sha handed = sha commit /\
               notes handed
               = filter (fun note =>
                           negb (str_eqb (title note) (lit "RELEASE AS")
                                 && str_eqb (text note) (lit "1.0.0")))
                        (notes commit))
            C (map strip_promotion C) /\
    Forall (fun call =>
              bump_commits call = map strip_promotion C /\
              Forall (fun commit =>
                        forall note, In note (notes commit) ->
                          ~ (title note = lit "RELEASE AS" /\
                             text note = lit "1.0.0"))
                     (bump_commits call))
           calls.
Proof.
  rewrite updateVersionsMap_eq.
  destruct (for_of_update_version_calls (existsb isPromotionCommit C)
              (map strip_promotion C) (Map.keys M) M w)
    as (M' & w' & Hrun & calls & Hb & Hc); [auto|].
  exists calls. rewrite Hrun. split; [exact Hb|]. split; [exact Hc|].
  split.
  - clear. induction C as [|c C' IH]; cbn [map]; constructor; [|exact IH].
    repeat split.
  - eapply Forall_impl; [|exact (@Forall_of_map_const _ _ bump_commits (map strip_promotion C)
                                          _ calls _ Hc)].
    intros call ->. split; [reflexivity|].
    apply Forall_forall. intros commit Hin note Hn Hp.
    apply in_map_iff in Hin as (c0 & <- & _).
    pose proof (strip_promotion_clean c0) as Hclean.
    assert (isPromotionCommit (strip_promotion c0) = true); [|congruence].
    apply isPromotionCommit_iff. exists note. tauto.
Qed.

(* ================================================================= *)
(** ** The update plan *)

Lemma forEach_extraFiles options (es : list ExtraFile) : forall acc,
  forEach es
    (fun updates extraFile =>
       match extraFile with
       | ExtraObject _ => updates
       | ExtraPath p => push updates (java_update options p)
       end)
    acc
  = acc ++ map (java_update options) (plain_paths es).
Proof.
  unfold forEach, push.
  induction es as [|[p|o] es' IH]; intros acc; simpl.
  - now rewrite app_nil_r.
  - now rewrite IH, <- app_assoc.
  - apply IH.
Qed.

(** The three searches are sent one after the other before any is awaited;
    each hypothesis speaks of the answer of the backend to one of them. *)
Lemma buildUpdates_plan options w pomFiles buildFiles dependenciesFiles :
  github_findFilesByFilenameAndRef
    (requests w)
    (lit "pom.xml") (targetBranch (this w)) (root_path (this w))
  = Ok pomFiles ->
  github_findFilesByFilenameAndRef
    (requests w ++ [search_request (this w) (lit "pom.xml")])
    (lit "build.gradle") (targetBranch (this w)) (root_path (this w))
  = Ok buildFiles ->
  github_findFilesByFilenameAndRef
    ((requests w ++ [search_request (this w) (lit "pom.xml")])
       ++ [search_request (this w) (lit "build.gradle")])
    (lit "dependencies.properties") (targetBranch (this w))
    (root_path (this w))
  = Ok dependenciesFiles ->
  fst (buildUpdates options w)
  = Ok (plan (this w) options pomFiles buildFiles dependenciesFiles).
Proof.
  intros Hpom Hbuild Hdeps.
  unfold buildUpdates, bind, get_this, findFilesByFilenameAndRef, await, ret.
  cbn [this requests]. unfold search_request in *.
  rewrite Hpom, Hbuild, Hdeps. cbn [fst].
  rewrite !forEach_push, forEach_extraFiles.
  unfold plan, push, registry_update, changelog_update.
  destruct (negb (isSnapshot options) && negb (skipChangelog (this w)));
    rewrite ?app_nil_r; cbn [app]; rewrite <- ?app_assoc; reflexivity.
Qed.

Lemma filter_is_changelog_java options (ps : list jsstring) (f : jsstring -> jsstring) :
  filter is_changelog (map (fun p => java_update options (f p)) ps) = [].
Proof. induction ps as [|p ps' IH]; simpl; auto. Qed.

Lemma filter_is_changelog_extra options (ps : list jsstring) :
  filter is_changelog (map (java_update options) ps) = [].
Proof. induction ps as [|p ps' IH]; simpl; auto. Qed.

Lemma filter_is_changelog_plan this options pomFiles buildFiles dependenciesFiles :
  filter is_changelog
         (plan this options pomFiles buildFiles dependenciesFiles)
  = if negb (isSnapshot options) && negb (skipChangelog this)
    then [changelog_update this options]
    else [].
Proof.
  unfold plan. rewrite !filter_app, !filter_is_changelog_java.
  rewrite ?filter_is_changelog_extra.
  destruct (negb (isSnapshot options) && negb (skipChangelog this));
    reflexivity.
Qed.

Lemma length_plan this options pomFiles buildFiles dependenciesFiles :
  length (plan this options pomFiles buildFiles dependenciesFiles)
  = 1 + length pomFiles + length buildFiles + length dependenciesFiles
    + length (plain_paths (extraFiles this))
    + (if negb (isSnapshot options) && negb (skipChangelog this)
       then 1 else 0).
Proof.
  unfold plan. rewrite !length_app, !length_map.
  destruct (negb (isSnapshot options) && negb (skipChangelog this));
    cbn [List.length]; lia.
Qed.

Lemma last_plan this options pomFiles buildFiles dependenciesFiles :
  negb (isSnapshot options) && negb (skipChangelog this) = true ->
  exists front,
    plan this options pomFiles buildFiles dependenciesFiles
    = front ++ [changelog_update this options].
Proof.
  intros H. unfold plan. rewrite H.
  eexists. rewrite !app_assoc. reflexivity.
Qed.

(** C3. The order of the plan: when the three searches answer, [buildUpdates]
    returns the descriptor of the registry file (not to be created, with the
    cached content of the instance), then one descriptor for each "pom.xml"
    found, for each "build.gradle" found, for each
    "dependencies.properties" found and for each extra file given as a path,
    in that order, and last the changelog descriptor (to be created if
    missing) when the release is not a snapshot and the changelog is not
    skipped.  With one file of each of the first two kinds, none of the
    third and one extra path, that makes five descriptors, the changelog
    last. *)
Theorem buildUpdates_order options w pomFiles buildFiles dependenciesFiles :
  github_findFilesByFilenameAndRef
    (requests w)
    (lit "pom.xml") (targetBranch (this w)) (root_path (this w))
  = Ok pomFiles ->
  github_findFilesByFilenameAndRef
    (requests w ++ [search_request (this w) (lit "pom.xml")])
    (lit "build.gradle") (targetBranch (this w)) (root_path (this w))
  = Ok buildFiles ->
  github_findFilesByFilenameAndRef
    ((requests w ++ [search_request (this w) (lit "pom.xml")])
       ++ [search_request (this w) (lit "build.gradle")])
    (lit "dependencies.properties") (targetBranch (this w))
    (root_path (this w))
  = Ok dependenciesFiles ->
  exists updates,
    fst (buildUpdates options w) = Ok updates /\
    updates =
      [{| path := addPath (this w) (lit "versions.txt");
          createIfMissing := false;
          cachedFileContents := versionsContent (this w);
          updater := VersionsManifest (newVersion options)
                                      (versionsMap options) |}]
      ++ map (fun p => java_update options (addPath (this w) p)) pomFiles
      ++ map (fun p => java_update options (addPath (this w) p)) buildFiles
      ++ map (fun p => java_update options (addPath (this w) p))
             dependenciesFiles
      ++ map (java_update options) (plain_paths (extraFiles (this w)))
      ++ (if negb (isSnapshot options) && negb (skipChangelog (this w))
          then [{| path := addPath (this w) (changelogPath (this w));
                   createIfMissing := true;
                   cachedFileContents := None;
                   updater := Changelog (newVersion options)
                                        (changelogEntry options) |}]
          else []) /\
    (length pomFiles = 1 -> length buildFiles = 1 ->
     length dependenciesFiles = 0 ->
     length (plain_paths (extraFiles (this w))) = 1 ->
     isSnapshot options = false -> skipChangelog (this w) = false ->
     length updates = 5 /\
     nth_error updates 4 = Some (changelog_update (this w) options)).
Proof.
  intros Hpom Hbuild Hdeps.
  exists (plan (this w) options pomFiles buildFiles dependenciesFiles).
  split; [now apply buildUpdates_plan|].
  split; [reflexivity|].
  intros H1 H2 H3 H4 Hs Hc.
  assert (Hcond : negb (isSnapshot options) && negb (skipChangelog (this w))
                  = true) by now rewrite Hs, Hc.
  assert (Hlen : length (plan (this w) options pomFiles buildFiles
                              dependenciesFiles) = 5).
  { rewrite length_plan, Hcond. lia. }
  split; [exact Hlen|].
  destruct (last_plan (this w) options pomFiles buildFiles dependenciesFiles
                      Hcond) as [front Hfront].
  rewrite Hfront in *. rewrite length_app in Hlen. cbn [List.length] in Hlen.
  rewrite nth_error_app2 by lia.
  now replace (4 - length front) with 0 by lia.
Qed.

(** C8. The changelog descriptor: when the three searches answer, the plan
    holds the changelog descriptor exactly once if the release is not a
    snapshot and the changelog is not skipped, and holds none otherwise; for
    a snapshot it holds none whatever the flag says. *)
Theorem buildUpdates_changelog options w pomFiles buildFiles dependenciesFiles :
  github_findFilesByFilenameAndRef
    (requests w)
    (lit "pom.xml") (targetBranch (this w)) (root_path (this w))
  = Ok pomFiles ->
  github_findFilesByFilenameAndRef
    (requests w ++ [search_request (this w) (lit "pom.xml")])
    (lit "build.gradle") (targetBranch (this w)) (root_path (this w))
  = Ok buildFiles ->
  github_findFilesByFilenameAndRef
    ((requests w ++ [search_request (this w) (lit "pom.xml")])
       ++ [search_request (this w) (lit "build.gradle")])
    (lit "dependencies.properties") (targetBranch (this w))
    (root_path (this w))
  = Ok dependenciesFiles ->
  exists updates,
    fst (buildUpdates options w) = Ok updates /\
    filter is_changelog updates
    = (if negb (isSnapshot options) && negb (skipChangelog (this w))
       then [changelog_update (this w) options]
       else []) /\
    (isSnapshot options = true ->
     forall u, In u updates -> is_changelog u = false).
Proof.
  intros Hpom Hbuild Hdeps.
  exists (plan (this w) options pomFiles buildFiles dependenciesFiles).
  split; [now apply buildUpdates_plan|].
  split; [apply filter_is_changelog_plan|].
  intros Hs u Hin.
  destruct (is_changelog u) eqn:Hu; [|reflexivity].
  assert (Hf : In u (filter is_changelog
                       (plan (this w) options pomFiles buildFiles
                             dependenciesFiles)))
    by (apply filter_In; now split).
  rewrite filter_is_changelog_plan, Hs in Hf. destruct Hf.
Qed.

Lemma map_path_java_update options (ps : list jsstring) :
  map (fun p => path (java_update options p)) ps = ps.
Proof. induction ps as [|p ps' IH]; simpl; [reflexivity|now f_equal]. Qed.

(** C10. The paths of the plan: an extra file given as a path is the path of
    its descriptor as it stands, while the registry file, the build files
    found and the changelog have their paths passed through [addPath]. *)
Theorem buildUpdates_paths options w pomFiles buildFiles dependenciesFiles :
  github_findFilesByFilenameAndRef
    (requests w)
    (lit "pom.xml") (targetBranch (this w)) (root_path (this w))
  = Ok pomFiles ->
  github_findFilesByFilenameAndRef
    (requests w ++ [search_request (this w) (lit "pom.xml")])
    (lit "build.gradle") (targetBranch (this w)) (root_path (this w))
  = Ok buildFiles ->
  github_findFilesByFilenameAndRef
    ((requests w ++ [search_request (this w) (lit "pom.xml")])
       ++ [search_request (this w) (lit "build.gradle")])
    (lit "dependencies.properties") (targetBranch (this w))
    (root_path (this w))
  = Ok dependenciesFiles ->
  exists updates,
    fst (buildUpdates options w) = Ok updates /\
    map path updates =
      [addPath (this w) (lit "versions.txt")]
      ++ map (addPath (this w)) pomFiles
      ++ map (addPath (this w)) buildFiles
      ++ map (addPath (this w)) dependenciesFiles
      ++ plain_paths (extraFiles (this w))
      ++ (if negb (isSnapshot options) && negb (skipChangelog (this w))
          then [addPath (this w) (changelogPath (this w))]
          else []).
Proof.
  intros Hpom Hbuild Hdeps.
  exists (plan (this w) options pomFiles buildFiles dependenciesFiles).
  split; [now apply buildUpdates_plan|].
  unfold plan. rewrite !map_app, !map_map. cbn [map path registry_update].
  rewrite map_path_java_update.
  destruct (negb (isSnapshot options) && negb (skipChangelog (this w)));
    reflexivity.
Qed.

(* ================================================================= *)
(** ** The registry content *)

(** With the content already held, nothing is sent and nothing changes. *)
Lemma getVersionsContent_cached w c :
  versionsContent (this w) = Some c -> getVersionsContent w = (Ok c, w).
Proof.
  intros H. unfold getVersionsContent, bind, get_this. now rewrite H.
Qed.

(** Without it, the outcome follows the answer of the backend. *)
Lemma getVersionsContent_fetch w :
  versionsContent (this w) = None ->
  getVersionsContent w =
  let file := addPath (this w) (lit "versions.txt") in
  let sent := requests w
              ++ [GetFileContentsOnBranch file (targetBranch (this w))] in
  match github_getFileContentsOnBranch (requests w) file
                                       (targetBranch (this w)) with
  | Ok c =>
      (Ok c, {| this := set_versionsContent (this w) c;
                requests := sent;
                warnings := warnings w;
                bumps := bumps w |})
  | Throw err =>
      (Throw (if instanceof_FileNotFoundError err
              then MissingRequiredFileError
                     file (lit "JavaYoshi")
                     (owner (repository (this w)) ++ lit "/"
                      ++ repo (repository (this w)))
              else err),
       {| this := this w;
          requests := sent;
          warnings := warnings w;
          bumps := bumps w |})
  end.
Proof.
  intros H.
  unfold getVersionsContent, bind, get_this. rewrite H.
  unfold try_catch, bind, getFileContentsOnBranch, assign_versionsContent,
    ret, throw.
  destruct (github_getFileContentsOnBranch _ _ _) as [c|err]; cbn.
  - reflexivity.
  - now destruct (instanceof_FileNotFoundError err).
Qed.

(** C5. The missing registry: when the content is not held yet and the
    backend fails, [getVersionsContent] throws; for a [FileNotFoundError] it
    throws the [MissingRequiredFileError] made of the path [addPath] gives
    for "versions.txt", the name of the class and "owner/repo", which is not
    the error of the backend; any other error is thrown again as it is.
    Nothing is cached. *)
Theorem getVersionsContent_missing_file w err :
  versionsContent (this w) = None ->
  github_getFileContentsOnBranch
    (requests w) (addPath (this w) (lit "versions.txt"))
    (targetBranch (this w))
  = Throw err ->
  (instanceof_FileNotFoundError err = true ->
   fst (getVersionsContent w)
   = Throw (MissingRequiredFileError
              (addPath (this w) (lit "versions.txt"))
              (lit "JavaYoshi")
              (owner (repository (this w)) ++ lit "/"
               ++ repo (repository (this w)))) /\
   fst (getVersionsContent w) <> Throw err) /\
  (instanceof_FileNotFoundError err = false ->
   fst (getVersionsContent w) = Throw err) /\
  versionsContent (this (snd (getVersionsContent w))) = None.
Proof.
  intros Hnone Hfail.
  rewrite (getVersionsContent_fetch w Hnone). cbv zeta. rewrite Hfail.
  cbn [fst snd this].
  split; [|split].
  - intros H. rewrite H. split; [reflexivity|].
    destruct err; discriminate.
  - intros H. now rewrite H.
  - exact Hnone.
Qed.

(** C6. Memoization: when the first call on an instance that holds no content
    returns [c], it has sent exactly one request, for the registry file on
    the target branch, and the instance holds [c]; from then on every call
    returns [c] and leaves everything as it is, so that no further request
    is sent, whatever the backend would answer. *)
Theorem getVersionsContent_memoized w c w1 :
  versionsContent (this w) = None ->
  getVersionsContent w = (Ok c, w1) ->
  requests w1
  = requests w
    ++ [GetFileContentsOnBranch (addPath (this w) (lit "versions.txt"))
                                (targetBranch (this w))] /\
  github_getFileContentsOnBranch
    (requests w) (addPath (this w) (lit "versions.txt"))
    (targetBranch (this w)) = Ok c /\
  versionsContent (this w1) = Some c /\
  getVersionsContent w1 = (Ok c, w1) /\
  (forall w2, versionsContent (this w2) = Some c ->
              getVersionsContent w2 = (Ok c, w2)).
Proof.
  intros Hnone Hcall.
  rewrite (getVersionsContent_fetch w Hnone) in Hcall. cbv zeta in Hcall.
  destruct (github_getFileContentsOnBranch _ _ _) as [c0|err] eqn:Hfetch;
    [|discriminate].
  injection Hcall as -> <-. cbn [requests this versionsContent].
  split; [reflexivity|]. split; [reflexivity|]. split; [reflexivity|].
  split.
  - now apply getVersionsContent_cached.
  - intros w2 H2. now apply getVersionsContent_cached.
Qed.

(* ================================================================= *)
(** ** Commit normalization *)

(** C7. [postProcessCommits] turns the empty list into the list of one
    commit of type "fake", without scope, not breaking, without notes or
    files, and with sha "fake"; it returns a list that is not empty as it
    is. *)
Theorem postProcessCommits_spec :
  (exists fake,
      postProcessCommits [] = [fake] /\
      type fake = lit "fake" /\ scope fake = None /\ breaking fake = false /\
      notes fake = [] /\ files fake = [] /\ sha fake = lit "fake") /\
  (forall commit commits,
      postProcessCommits (commit :: commits) = commit :: commits).
Proof.
  split.
  - exists fake_commit. repeat split.
  - intros commit commits. apply postProcessCommits_nonempty.
Qed.

(* ================================================================= *)
(** ** Stability *)

Lemma run_all_digits (ds : jsstring) :
  forallb isDigit ds = true -> run isDigit ds = length ds.
Proof.
  intros H. rewrite <- (app_nil_r ds) at 1. now apply run_app_stop.
Qed.

(** A key that ends with "-v" and digits is stable. *)
Lemma isStableArtifact_plain_version base ds :
  ds <> [] -> forallb isDigit ds = true ->
  isStableArtifact (base ++ lit "-v" ++ ds) = true.
Proof.
  intros Hne Hds. change (lit "-v") with [hyphen; letter_v]. cbn [app].
  destruct ds as [|d ds']; [contradiction|].
  cbn [forallb] in Hds. apply andb_prop in Hds as [Hd Hds].
  rewrite isStableArtifact_last_hyphen.
  - unfold qualified.
    rewrite run_all_digits, skipn_all by assumption.
    cbn [truthy]. now rewrite !andb_false_r.
  - cbn [forallb]. rewrite (isDigit_notHyphen _ Hd). cbn [notHyphen andb].
    apply forallb_forall. intros c Hc.
    apply isDigit_notHyphen. rewrite forallb_forall in Hds. auto.
Qed.

(** C4, as the code has it.  [isStableArtifact] answers false exactly for
    the keys made of a base, "-v", one or more digits and a qualifier, where
    the qualifier is not empty, has no hyphen and does not start with a
    digit, and where neither the base nor the qualifier holds a line
    terminator; it answers true for every other key, among them the keys
    without a suffix "-v" and digits and the keys that end with "-v" and
    digits.  So "core", "core-v2" and "core-v2-beta" are stable and
    "core-v2beta" is not. *)
Theorem isStableArtifact_classification :
  (isStableArtifact (lit "core") = true /\
   isStableArtifact (lit "core-v2") = true /\
   isStableArtifact (lit "core-v2beta") = false /\
   isStableArtifact (lit "core-v2-beta") = true) /\
  (forall key, isStableArtifact key = false <-> prestable_form key) /\
  (forall key,
      ~ (exists base ds q,
            key = base ++ lit "-v" ++ ds ++ q /\
            ds <> [] /\ forallb isDigit ds = true) ->
      isStableArtifact key = true) /\
  (forall base ds,
      ds <> [] -> forallb isDigit ds = true ->
      isStableArtifact (base ++ lit "-v" ++ ds) = true).
Proof.
  split; [repeat split|].
  split; [apply isStableArtifact_false_iff|].
  split; [|apply isStableArtifact_plain_version].
  intros key Hno. apply not_false_is_true. intros Hf.
  apply isStableArtifact_false_iff in Hf
    as (base & ds & q & Hk & Hne & Hds & _).
  apply Hno. exists base, ds, q. auto.
Qed.

(* ================================================================= *)
(** ** Further properties: the version loop, entry by entry *)

Lemma with_bumps_nil w : with_bumps w [] = w.
Proof. destruct w. unfold with_bumps. simpl. now rewrite app_nil_r. Qed.

Lemma with_bumps_app w calls calls' :
  with_bumps (with_bumps w calls) calls' = with_bumps w (calls ++ calls').
Proof. unfold with_bumps. simpl. now rewrite app_assoc. Qed.

Lemma get_app_fresh (V : Type) (done todo : Map.t V) k v :
  ~ In k (Map.keys done) ->
  Map.get (done ++ (k, v) :: todo) k = Some v.
Proof.
  induction done as [|[k' v'] done' IH]; simpl; intros Hk.
  - now rewrite str_eqb_refl.
  - destruct (str_eqb k' k) eqn:E.
    + apply str_eqb_eq in E. tauto.
    + apply IH. tauto.
Qed.

Lemma set_app_fresh (V : Type) (done todo : Map.t V) k v v' :
  ~ In k (Map.keys done) ->
  Map.set (done ++ (k, v) :: todo) k v' = done ++ (k, v') :: todo.
Proof.
  induction done as [|[k0 v0] done' IH]; simpl; intros Hk.
  - now rewrite str_eqb_refl.
  - destruct (str_eqb k0 k) eqn:E.
    + apply str_eqb_eq in E. tauto.
    + f_equal. apply IH. tauto.
Qed.

Lemma next_entry_pair isPromotion modifiedCommits k v :
  next_entry isPromotion modifiedCommits (k, v)
  = (k, if isPromotion && isStableArtifact k
        then Version_parse (lit "1.0.0")
        else versioningStrategy_bump v modifiedCommits).
Proof. reflexivity. Qed.

(** The loop over the entries still to come, with those already done in
    front: in a map without repeated keys each round reads and rewrites its
    own entry. *)
Lemma for_of_update_version_entries isPromotion modifiedCommits :
  forall todo done w,
    NoDup (Map.keys (done ++ todo)) ->
    for_of (Map.keys todo) (update_version isPromotion modifiedCommits)
           (done ++ todo) w
    = (Ok (done ++ map (next_entry isPromotion modifiedCommits) todo),
       with_bumps w (bump_calls isPromotion modifiedCommits todo)).
Proof.
  induction todo as [|[k v] todo' IH]; intros done w Hnd.
  - cbn [Map.keys map for_of bump_calls]. unfold ret.
    now rewrite with_bumps_nil.
  - assert (Hfresh : ~ In k (Map.keys done)).
    { unfold Map.keys in *. rewrite map_app in Hnd. cbn [map fst] in Hnd.
      apply NoDup_remove_2 in Hnd. intros Hin. apply Hnd.
      apply in_or_app. now left. }
    assert (Hnd' : forall v',
               NoDup (Map.keys ((done ++ [(k, v')]) ++ todo'))).
    { intros v'. unfold Map.keys in *.
      rewrite !map_app in *. cbn [map fst] in *.
      now rewrite <- app_assoc. }
    change (Map.keys ((k, v) :: todo')) with (k :: Map.keys todo').
    cbn [for_of map bump_calls]. rewrite next_entry_pair. unfold bind at 1.
    unfold update_version.
    rewrite (@get_app_fresh _ done todo' k v Hfresh).
    destruct (isPromotion && isStableArtifact k) eqn:Hp.
    + unfold ret at 1. rewrite (@set_app_fresh _ done todo' k v _ Hfresh).
      replace (done ++ (k, Version_parse (lit "1.0.0")) :: todo')
        with ((done ++ [(k, Version_parse (lit "1.0.0"))]) ++ todo')
        by now rewrite <- app_assoc.
      rewrite IH by apply Hnd'.
      now rewrite <- app_assoc.
    + unfold bind at 1, bump at 1, ret at 1.
      rewrite (@set_app_fresh _ done todo' k v _ Hfresh).
      replace (done ++ (k, versioningStrategy_bump v modifiedCommits) :: todo')
        with ((done ++ [(k, versioningStrategy_bump v modifiedCommits)])
                ++ todo')
        by now rewrite <- app_assoc.
      rewrite IH by apply Hnd'.
      rewrite <- app_assoc. cbn [app]. f_equal.
      apply (with_bumps_app w [_]).
Qed.

Lemma map_strip_promotion_id C :
  existsb isPromotionCommit C = false -> map strip_promotion C = C.
Proof.
  induction C as [|c C' IH]; simpl; [reflexivity|].
  intros H. apply orb_false_iff in H as [Hc HC].
  now rewrite strip_promotion_id, IH.
Qed.

(** X1. [updateVersionsMap] entry by entry: on a map without repeated keys
    it returns the entries in the same order, each stable key set to
    1.0.0 when some commit is a promotion commit, every other key set to
    what the versioning strategy makes of its version and the commits
    without their promotion notes; the versioning strategy is called once
    for each of these other keys, in the order of the map, and nothing else
    changes. *)
Theorem updateVersionsMap_entries M C w :
  NoDup (Map.keys M) ->
  updateVersionsMap M C w
  = (Ok (map (next_entry (existsb isPromotionCommit C)
                         (map strip_promotion C)) M),
     with_bumps w (bump_calls (existsb isPromotionCommit C)
                              (map strip_promotion C) M)).
Proof.
  intros Hnd. rewrite updateVersionsMap_eq.
  exact (for_of_update_version_entries _ _ M [] w Hnd).
Qed.

(** X2. Without a promotion commit the commits reach the versioning
    strategy as they are, and every key of a map without repeated keys gets
    the version the strategy computes from its current one. *)
Theorem updateVersionsMap_no_promotion M C w :
  NoDup (Map.keys M) ->
  existsb isPromotionCommit C = false ->
  updateVersionsMap M C w
  = (Ok (map (fun entry => (fst entry, versioningStrategy_bump (snd entry) C))
             M),
     with_bumps w (map (fun entry => {| bump_version := snd entry;
                                        bump_commits := C |}) M)).
Proof.
  intros Hnd Hno. rewrite updateVersionsMap_eq, Hno, map_strip_promotion_id
    by assumption.
  pose proof (for_of_update_version_entries false C M [] w Hnd) as Hrun.
  cbn [app] in Hrun. rewrite Hrun.
  assert (Hcalls : bump_calls false C M
                   = map (fun entry => {| bump_version := snd entry;
                                          bump_commits := C |}) M).
  { clear. induction M as [|[k v] M' IH]; simpl; [reflexivity|].
    now rewrite IH. }
  now rewrite Hcalls.
Qed.

Lemma update_version_quiet isPromotion modifiedCommits m x w :
  In x (Map.keys m) ->
  exists m1 calls,
    update_version isPromotion modifiedCommits m x w
    = (Ok m1, with_bumps w calls) /\
    Map.keys m1 = Map.keys m.
Proof.
  intros Hin. apply get_in_keys in Hin as [v Hv].
  unfold update_version. rewrite Hv.
  destruct (isPromotion && isStableArtifact x).
  - eexists _, []. rewrite with_bumps_nil. split; [reflexivity|].
    eapply keys_set_present; eassumption.
  - eexists _, [_]. split; [reflexivity|].
    eapply keys_set_present; eassumption.
Qed.

Lemma for_of_update_version_quiet isPromotion modifiedCommits ks :
  forall m w,
    (forall k, In k ks -> In k (Map.keys m)) ->
    exists m' calls,
      for_of ks (update_version isPromotion modifiedCommits) m w
      = (Ok m', with_bumps w calls).
Proof.
  induction ks as [|x ks' IH]; intros m w Hks.
  - exists m, []. now rewrite with_bumps_nil.
  - destruct (update_version_quiet isPromotion modifiedCommits m x w)
      as (m1 & calls1 & Hstep & Hkeys); [apply Hks; now left|].
    destruct (IH m1 (with_bumps w calls1)) as (m' & calls & Hloop).
    { intros k Hk. rewrite Hkeys. apply Hks. now right. }
    exists m', (calls1 ++ calls).
    cbn [for_of]. unfold bind at 1. rewrite Hstep, Hloop.
    now rewrite with_bumps_app.
Qed.

(** X3. [updateVersionsMap] is quiet: whatever the map and the commits, it
    logs no warning, sends nothing to the backend and leaves the instance as
    it is; all it does besides computing the map is to call the versioning
    strategy. *)
Theorem updateVersionsMap_quiet M C w :
  this (snd (updateVersionsMap M C w)) = this w /\
  requests (snd (updateVersionsMap M C w)) = requests w /\
  warnings (snd (updateVersionsMap M C w)) = warnings w.
Proof.
  rewrite updateVersionsMap_eq.
  destruct (for_of_update_version_quiet (existsb isPromotionCommit C)
              (map strip_promotion C) (Map.keys M) M w)
    as (m' & calls & Hrun); [auto|].
  rewrite Hrun. repeat split.
Qed.

(* ================================================================= *)
(** ** Further properties: the registry content across the methods *)

Lemma getVersionsContent_outcome w :
  getVersionsContent w =
  match versionsContent (this w) with
  | Some c => (Ok c, w)
  | None =>
      match github_getFileContentsOnBranch
              (requests w) (addPath (this w) (lit "versions.txt"))
              (targetBranch (this w)) with
      | Ok c =>
          (Ok c, with_content (with_requests w [registry_request (this w)]) c)
      | Throw err =>
          (Throw (translate_error (this w) err),
           with_requests w [registry_request (this w)])
      end
  end.
Proof.
  destruct (versionsContent (this w)) as [c|] eqn:Hc.
  - now apply getVersionsContent_cached.
  - rewrite (getVersionsContent_fetch w Hc). cbv zeta.
    destruct (github_getFileContentsOnBranch _ _ _); reflexivity.
Qed.

Lemma buildVersionsMap_unfold w :
  buildVersionsMap w =
  match getVersionsContent w with
  | (Ok c, w') => (Ok (VersionsManifest_parseVersions c), with_content w' c)
  | (Throw err, w') => (Throw err, w')
  end.
Proof.
  unfold buildVersionsMap, bind.
  destruct (getVersionsContent w) as [[c|err] w']; reflexivity.
Qed.

Lemma needsSnapshot_unfold w :
  needsSnapshot w =
  if canSkipSnapshot (this w) then (Ok false, w)
  else
    match getVersionsContent w with
    | (Ok c, w') => (Ok (VersionsManifest_needsSnapshot c), w')
    | (Throw err, w') => (Throw err, w')
    end.
Proof.
  unfold needsSnapshot, bind, get_this.
  destruct (canSkipSnapshot (this w)); [reflexivity|].
  destruct (getVersionsContent w) as [[c|err] w']; reflexivity.
Qed.

Lemma getVersionsContent_holds w c w1 :
  getVersionsContent w = (Ok c, w1) -> versionsContent (this w1) = Some c.
Proof.
  rewrite getVersionsContent_outcome.
  destruct (versionsContent (this w)) as [c0|] eqn:Hc.
  - now intros [= <- <-].
  - destruct (github_getFileContentsOnBranch _ _ _) as [c0|err];
      [|discriminate].
    now intros [= <- <-].
Qed.

(** X4. What [getVersionsContent] may change: in every case it leaves the
    warnings, the calls of the versioning strategy and the configuration of
    the instance alone; it sends nothing when the content is held and
    exactly one request, for the registry file on the target branch,
    otherwise; and whenever it returns a content, the instance holds that
    content afterwards. *)
Theorem getVersionsContent_frame w :
  warnings (snd (getVersionsContent w)) = warnings w /\
  bumps (snd (getVersionsContent w)) = bumps w /\
  requests (snd (getVersionsContent w))
  = requests w ++ match versionsContent (this w) with
                  | Some _ => []
                  | None => [registry_request (this w)]
                  end /\
  (root_path (this (snd (getVersionsContent w))) = root_path (this w) /\
   targetBranch (this (snd (getVersionsContent w))) = targetBranch (this w) /\
   repository (this (snd (getVersionsContent w))) = repository (this w) /\
   extraFiles (this (snd (getVersionsContent w))) = extraFiles (this w) /\
   skipChangelog (this (snd (getVersionsContent w)))
   = skipChangelog (this w) /\
   changelogPath (this (snd (getVersionsContent w)))
   = changelogPath (this w)) /\
  (forall c, fst (getVersionsContent w) = Ok c ->
             versionsContent (this (snd (getVersionsContent w))) = Some c).
Proof.
  rewrite getVersionsContent_outcome.
  destruct (versionsContent (this w)) as [c0|] eqn:Hc.
  - cbn [fst snd]. rewrite app_nil_r.
    repeat split. intros c [= <-]. exact Hc.
  - destruct (github_getFileContentsOnBranch _ _ _) as [c0|err];
      cbn [fst snd with_content with_requests this requests warnings bumps
           set_versionsContent root_path targetBranch repository extraFiles
           skipChangelog changelogPath versionsContent].
    + repeat split. now intros c [= <-].
    + repeat split. discriminate.
Qed.

(** X5. A failed fetch is not remembered: when the first call fails, the
    next call asks the backend again, and if the backend answers this second
    request the call returns that content, two requests having been sent. *)
Theorem getVersionsContent_retry w err c :
  versionsContent (this w) = None ->
  github_getFileContentsOnBranch
    (requests w) (addPath (this w) (lit "versions.txt"))
    (targetBranch (this w)) = Throw err ->
  github_getFileContentsOnBranch
    (requests w ++ [registry_request (this w)])
    (addPath (this w) (lit "versions.txt"))
    (targetBranch (this w)) = Ok c ->
  fst (getVersionsContent w) = Throw (translate_error (this w) err) /\
  fst (getVersionsContent (snd (getVersionsContent w))) = Ok c /\
  requests (snd (getVersionsContent (snd (getVersionsContent w))))
  = requests w ++ [registry_request (this w); registry_request (this w)].
Proof.
  intros Hnone Hfail Hok.
  rewrite (getVersionsContent_outcome w), Hnone, Hfail. cbn [fst snd].
  rewrite getVersionsContent_outcome.
  cbn [with_requests this requests]. rewrite Hnone, Hok. cbn [fst snd].
  split; [reflexivity|]. split; [reflexivity|].
  cbn [with_content with_requests requests]. now rewrite <- app_assoc.
Qed.

(** X6. When snapshots can be skipped, [needsSnapshot] answers false at
    once: it sends nothing to the backend and leaves the world as it is,
    whether the registry content is held or not. *)
Theorem needsSnapshot_skip w :
  canSkipSnapshot (this w) = true -> needsSnapshot w = (Ok false, w).
Proof. intros H. now rewrite needsSnapshot_unfold, H. Qed.

(** X7. The errors of the registry pass through: when the content is not held
    and the backend fails, [buildVersionsMap] throws what
    [getVersionsContent] throws (the "required file missing" error for a
    file not found, the error of the backend otherwise), and so does
    [needsSnapshot] unless snapshots can be skipped; no content is held
    afterwards. *)
Theorem registry_errors_pass_through w err :
  versionsContent (this w) = None ->
  github_getFileContentsOnBranch
    (requests w) (addPath (this w) (lit "versions.txt"))
    (targetBranch (this w)) = Throw err ->
  fst (buildVersionsMap w) = Throw (translate_error (this w) err) /\
  versionsContent (this (snd (buildVersionsMap w))) = None /\
  (canSkipSnapshot (this w) = false ->
   fst (needsSnapshot w) = Throw (translate_error (this w) err) /\
   versionsContent (this (snd (needsSnapshot w))) = None).
Proof.
  intros Hnone Hfail.
  rewrite buildVersionsMap_unfold, needsSnapshot_unfold.
  rewrite (getVersionsContent_outcome w), Hnone, Hfail.
  cbn [fst snd with_requests this].
  split; [reflexivity|]. split; [exact Hnone|].
  intros ->. cbn [fst snd this]. split; [reflexivity|exact Hnone].
Qed.

(** X8. After [buildVersionsMap] has returned, the registry is not fetched
    again: the map it returned is parsed from a content [c] that the
    instance now holds, and from that world [getVersionsContent],
    [buildVersionsMap] and [needsSnapshot] all answer from [c] and leave the
    world, the log of requests included, as it is. *)
Theorem buildVersionsMap_settles w m w1 :
  buildVersionsMap w = (Ok m, w1) ->
  exists c,
    m = VersionsManifest_parseVersions c /\
    versionsContent (this w1) = Some c /\
    getVersionsContent w1 = (Ok c, w1) /\
    buildVersionsMap w1 = (Ok m, w1) /\
    needsSnapshot w1
    = (Ok (if canSkipSnapshot (this w1) then false
           else VersionsManifest_needsSnapshot c), w1).
Proof.
  rewrite buildVersionsMap_unfold.
  destruct (getVersionsContent w) as [[c|err] w'] eqn:Hget; [|discriminate].
  intros [= <- <-]. exists c.
  assert (Hheld : versionsContent (this (with_content w' c)) = Some c)
    by reflexivity.
  pose proof (getVersionsContent_cached _ Hheld) as Hagain.
  split; [reflexivity|]. split; [reflexivity|]. split; [exact Hagain|].
  split.
  - rewrite buildVersionsMap_unfold, Hagain. reflexivity.
  - rewrite needsSnapshot_unfold, Hagain.
    now destruct (canSkipSnapshot _).
Qed.

(** X9. One fetch serves both: when [needsSnapshot] had to look at the
    registry and returned, the [buildVersionsMap] that follows sends no
    request and parses the very content the answer came from. *)
Theorem needsSnapshot_then_buildVersionsMap w b w1 :
  canSkipSnapshot (this w) = false ->
  needsSnapshot w = (Ok b, w1) ->
  exists c,
    b = VersionsManifest_needsSnapshot c /\
    fst (buildVersionsMap w1) = Ok (VersionsManifest_parseVersions c) /\
    requests (snd (buildVersionsMap w1)) = requests w1.
Proof.
  intros Hskip. rewrite needsSnapshot_unfold, Hskip.
  destruct (getVersionsContent w) as [[c|err] w'] eqn:Hget; [|discriminate].
  intros [= <- <-]. exists c. split; [reflexivity|].
  pose proof (getVersionsContent_holds w Hget) as Hheld.
  rewrite buildVersionsMap_unfold, (getVersionsContent_cached _ Hheld).
  split; reflexivity.
Qed.

(* ================================================================= *)
(** ** Further properties: the searches and the descriptors of the plan *)

Lemma app_three (A : Type) (l : list A) a b c :
  ((l ++ [a]) ++ [b]) ++ [c] = l ++ [a; b; c].
Proof. rewrite <- 2 app_assoc. reflexivity. Qed.

(** X10. The three searches always leave, in the order "pom.xml",
    "build.gradle", "dependencies.properties", each on the target branch
    under the module root, before any answer is looked at: whatever the
    backend answers, [buildUpdates] sends these three requests and changes
    nothing else. *)
Theorem buildUpdates_requests options w :
  snd (buildUpdates options w) = with_requests w (search_requests (this w)).
Proof.
  unfold buildUpdates, bind, get_this, findFilesByFilenameAndRef, await, ret.
  cbn [this requests warnings bumps].
  unfold with_requests, search_requests, search_request.
  rewrite <- app_three.
  repeat match goal with
         | |- context [github_findFilesByFilenameAndRef ?s ?f ?b ?p] =>
             destruct (github_findFilesByFilenameAndRef s f b p)
         end;
    cbn [snd]; reflexivity.
Qed.

(** X11. A failed search: [buildUpdates] throws the error of the first search
    that failed, the searches being looked at in the order "pom.xml",
    "build.gradle", "dependencies.properties"; it returns no plan then. *)
Theorem buildUpdates_search_failure options w :
  (forall err,
      github_findFilesByFilenameAndRef
        (requests w) (lit "pom.xml")
        (targetBranch (this w)) (root_path (this w)) = Throw err ->
      fst (buildUpdates options w) = Throw err) /\
  (forall pomFiles err,
      github_findFilesByFilenameAndRef
        (requests w) (lit "pom.xml")
        (targetBranch (this w)) (root_path (this w)) = Ok pomFiles ->
      github_findFilesByFilenameAndRef
        (requests w ++ [search_request (this w) (lit "pom.xml")])
        (lit "build.gradle")
        (targetBranch (this w)) (root_path (this w)) = Throw err ->
      fst (buildUpdates options w) = Throw err) /\
  (forall pomFiles buildFiles err,
      github_findFilesByFilenameAndRef
        (requests w) (lit "pom.xml")
        (targetBranch (this w)) (root_path (this w)) = Ok pomFiles ->
      github_findFilesByFilenameAndRef
        (requests w ++ [search_request (this w) (lit "pom.xml")])
        (lit "build.gradle")
        (targetBranch (this w)) (root_path (this w)) = Ok buildFiles ->
      github_findFilesByFilenameAndRef
        ((requests w ++ [search_request (this w) (lit "pom.xml")])
           ++ [search_request (this w) (lit "build.gradle")])
        (lit "dependencies.properties")
        (targetBranch (this w)) (root_path (this w)) = Throw err ->
      fst (buildUpdates options w) = Throw err).
Proof.
  unfold buildUpdates, bind, get_this, findFilesByFilenameAndRef, await, ret.
  cbn [this requests]. unfold search_request.
  split; [|split].
  - intros err ->. reflexivity.
  - intros pomFiles err -> ->. reflexivity.
  - intros pomFiles buildFiles err -> -> ->. reflexivity.
Qed.

Lemma descriptor_ok_java this options p :
  descriptor_ok this options (java_update options p).
Proof. unfold descriptor_ok. simpl. auto. Qed.

Lemma Forall_descriptor_ok_map this options (f : jsstring -> jsstring) ps :
  Forall (descriptor_ok this options)
         (map (fun p => java_update options (f p)) ps).
Proof.
  apply Forall_forall. intros u Hu.
  apply in_map_iff in Hu as (p & <- & _). apply descriptor_ok_java.
Qed.

(** X12. The descriptors of a plan: each one carries the new version; the
    registry descriptor and those of the build and extra files carry the
    versions map, the latter with the snapshot flag as well; only the
    changelog descriptor may create its file, and it is at the changelog
    path; only the registry descriptor carries a cached content, the one the
    instance holds. *)
Theorem buildUpdates_descriptors options w pomFiles buildFiles
        dependenciesFiles :
  github_findFilesByFilenameAndRef
    (requests w)
    (lit "pom.xml") (targetBranch (this w)) (root_path (this w))
  = Ok pomFiles ->
  github_findFilesByFilenameAndRef
    (requests w ++ [search_request (this w) (lit "pom.xml")])
    (lit "build.gradle") (targetBranch (this w)) (root_path (this w))
  = Ok buildFiles ->
  github_findFilesByFilenameAndRef
    ((requests w ++ [search_request (this w) (lit "pom.xml")])
       ++ [search_request (this w) (lit "build.gradle")])
    (lit "dependencies.properties") (targetBranch (this w))
    (root_path (this w))
  = Ok dependenciesFiles ->
  exists updates,
    fst (buildUpdates options w) = Ok updates /\
    Forall (descriptor_ok (this w) options) updates.
Proof.
  intros Hpom Hbuild Hdeps.
  exists (plan (this w) options pomFiles buildFiles dependenciesFiles).
  split; [now apply buildUpdates_plan|].
  unfold plan.
  apply Forall_app. split.
  { constructor; [|constructor]. unfold descriptor_ok. simpl. auto. }
  apply Forall_app. split; [apply Forall_descriptor_ok_map|].
  apply Forall_app. split; [apply Forall_descriptor_ok_map|].
  apply Forall_app. split; [apply Forall_descriptor_ok_map|].
  apply Forall_app. split.
  { apply (Forall_descriptor_ok_map (this w) options (fun p => p)). }
  destruct (negb (isSnapshot options) && negb (skipChangelog (this w)));
    [|constructor].
  constructor; [|constructor]. unfold descriptor_ok. simpl. auto.
Qed.

(** X13. From the registry to the plan: after [buildVersionsMap] has
    returned, a plan built in the world it left starts with the registry
    descriptor, and that descriptor carries, as cached content, the content
    the returned map was parsed from. *)
Theorem buildVersionsMap_then_buildUpdates options w m w1
        pomFiles buildFiles dependenciesFiles :
  buildVersionsMap w = (Ok m, w1) ->
  github_findFilesByFilenameAndRef
    (requests w1)
    (lit "pom.xml") (targetBranch (this w1)) (root_path (this w1))
  = Ok pomFiles ->
  github_findFilesByFilenameAndRef
    (requests w1 ++ [search_request (this w1) (lit "pom.xml")])
    (lit "build.gradle") (targetBranch (this w1)) (root_path (this w1))
  = Ok buildFiles ->
  github_findFilesByFilenameAndRef
    ((requests w1 ++ [search_request (this w1) (lit "pom.xml")])
       ++ [search_request (this w1) (lit "build.gradle")])
    (lit "dependencies.properties") (targetBranch (this w1))
    (root_path (this w1))
  = Ok dependenciesFiles ->
  exists c others,
    m = VersionsManifest_parseVersions c /\
    fst (buildUpdates options w1)
    = Ok ({| path := addPath (this w1) (lit "versions.txt");
             createIfMissing := false;
             cachedFileContents := Some c;
             updater := VersionsManifest (newVersion options)
                                         (versionsMap options) |}
          :: others).
Proof.
  intros Hmap Hpom Hbuild Hdeps.
  rewrite buildVersionsMap_unfold in Hmap.
  destruct (getVersionsContent w) as [[c|err] w'] eqn:Hget; [|discriminate].
  injection Hmap as <- <-.
  exists c. eexists. split; [reflexivity|].
  rewrite (buildUpdates_plan options _ Hpom Hbuild Hdeps).
  unfold plan, registry_update. cbn [app]. reflexivity.
Qed.

(* ================================================================= *)
(** ** Further properties: the two patterns and the commits *)

Lemma firstn_key (base t : jsstring) :
  firstn (S (length base) + length t - 0) (base ++ hyphen :: t)
  = base ++ hyphen :: t.
Proof.
  apply firstn_all2. rewrite length_app. cbn [List.length]. lia.
Qed.

Lemma firstn_version (c d : char) (t : jsstring) :
  firstn (S 1 + length t - 0) (c :: d :: t) = c :: d :: t.
Proof. apply firstn_all2. cbn [List.length]. lia. Qed.

(** X14. What the first pattern captures: it matches a key exactly when the
    key has a hyphen, no line terminator before its last hyphen, and the
    letter v and a digit right after it; the match then starts at index 0,
    covers the whole key, and its group 1 is the text after the last
    hyphen.  In particular group 1 is always set, so that the second match
    of [isStableArtifact] always has a string to work on. *)
Theorem versioned_artifact_match key m :
  str_match key VERSIONED_ARTIFACT_REGEX = Some m <->
  exists base t,
    key = base ++ hyphen :: t /\
    forallb notHyphen t = true /\
    forallb dot base = true /\
    starts_version t = true /\
    m = MatchResult 0 key [(1, t)].
Proof.
  unfold VERSIONED_ARTIFACT_REGEX. rewrite str_match_Bos.
  split.
  - destruct (last_hyphen_split key) as [Hno|(base & t & -> & Ht)].
    + pose proof (versioned_match_no_hyphen key Hno) as Hnone.
      unfold VERSIONED_ARTIFACT_REGEX in Hnone.
      rewrite str_match_Bos in Hnone.
      destruct (rmatch _ _ _); [discriminate|discriminate].
    + rewrite versioned_match_last_hyphen by assumption.
      destruct (forallb dot base) eqn:Hb; [|discriminate].
      destruct (starts_version t) eqn:Hs; [|discriminate].
      cbn [andb pos JS.caps]. rewrite firstn_key. intros [= <-].
      exists base, t. repeat split; auto.
  - intros (base & t & -> & Ht & Hb & Hs & ->).
    rewrite versioned_match_last_hyphen, Hb, Hs by assumption.
    cbn [andb pos JS.caps]. now rewrite firstn_key.
Qed.

(** X15. What the second pattern captures: it matches a text exactly when
    the text is the letter v, then a digit, then characters none of which is
    a line terminator; its group 1 is then what is left of the text after
    the letter and all the digits that follow it. *)
Theorem version_match g vm :
  str_match g VERSION_REGEX = Some vm <->
  exists d t,
    g = letter_v :: d :: t /\
    isDigit d = true /\
    forallb dot t = true /\
    vm = MatchResult 0 g [(1, skipn (run isDigit t) t)].
Proof.
  unfold VERSION_REGEX. rewrite str_match_Bos.
  destruct g as [|c g'].
  - split; [discriminate|]. intros (d & t & H & _). discriminate.
  - change (rmatch (Lit letter_v >> ?r) (MState 0 (c :: g') []) Some)
      with (if N.eqb c letter_v then rmatch r (MState 1 g' []) Some else None).
    destruct (N.eqb c letter_v) eqn:Hc.
    + apply N.eqb_eq in Hc. subst c. rewrite version_tail_match.
      destruct g' as [|d t].
      * split; [discriminate|]. intros (d & t & H & _). discriminate.
      * split.
        -- destruct (isDigit d) eqn:Hd; [|discriminate].
           destruct (forallb dot t) eqn:Ht; [|discriminate].
           cbn [andb pos JS.caps]. rewrite firstn_version. intros [= <-].
           exists d, t. repeat split; auto.
        -- intros (d' & t' & [= <- <-] & Hd & Ht & ->).
           rewrite Hd, Ht. cbn [andb pos JS.caps].
           now rewrite firstn_version.
    + split; [discriminate|].
      intros (d & t & [= -> _] & _). rewrite N.eqb_refl in Hc. discriminate.
Qed.

(** X16. Stability is a matter of the suffix: two keys with the same text
    after their last hyphen are classified alike, whatever stands before
    the hyphen, as long as it holds no line terminator. *)
Theorem isStableArtifact_suffix base base' t :
  forallb notHyphen t = true ->
  forallb dot base = true ->
  forallb dot base' = true ->
  isStableArtifact (base ++ hyphen :: t)
  = isStableArtifact (base' ++ hyphen :: t).
Proof.
  intros Ht Hb Hb'.
  rewrite !isStableArtifact_last_hyphen by assumption.
  now rewrite Hb, Hb'.
Qed.

(** X17. [postProcessCommits] never returns the empty list, keeps every
    commit it was given, changes nothing when applied again, and neither
    adds nor removes a promotion: the commit it pushes has no note. *)
Theorem postProcessCommits_never_empty commits :
  postProcessCommits commits <> [] /\
  (forall commit, In commit commits ->
                  In commit (postProcessCommits commits)) /\
  postProcessCommits (postProcessCommits commits)
  = postProcessCommits commits /\
  existsb isPromotionCommit (postProcessCommits commits)
  = existsb isPromotionCommit commits.
Proof.
  destruct commits as [|c cs].
  - repeat split; try discriminate. intros commit [].
  - rewrite !postProcessCommits_nonempty. repeat split; auto. discriminate.
Qed.

End Strategy.

(* ================================================================= *)
(** ** A worked release cycle

    The collaborators are instantiated: versions are their text, [addPath]
    joins the module root and the file with a slash, the versioning strategy
    appends a marker, and the backend finds one "pom.xml" and one
    "build.gradle". *)

Definition demo_parse (s : jsstring) : jsstring := s.

Definition demo_addPath (this : JavaYoshi jsstring unit) (file : jsstring)
  : jsstring :=
  root_path this ++ lit "/" ++ file.

Definition demo_bump (v : jsstring) (commits : list (ConventionalCommit unit))
  : jsstring :=
  v ++ lit "+bumped".

Definition demo_find (sent : list Request) (filename ref prefix : jsstring)
  : Result (list jsstring) :=
  if str_eqb filename (lit "pom.xml") then Ok [lit "pom.xml"]
  else if str_eqb filename (lit "build.gradle") then Ok [lit "build.gradle"]
  else Ok [].

(** A backend without the registry file. *)
Definition demo_get_missing (sent : list Request) (file branch : jsstring)
  : Result jsstring :=
  Throw (FileNotFoundError file).

(** A backend whose registry file changes after the first request. *)
Definition demo_get (sent : list Request) (file branch : jsstring)
  : Result jsstring :=
  match sent with
  | [] => Ok (lit "core:0.9.0:0.9.1-SNAPSHOT")
  | _ :: _ => Ok (lit "core:1.0.0:1.0.1-SNAPSHOT")
  end.

Definition demo_this : JavaYoshi jsstring unit :=
  {| root_path := lit "lib";
     targetBranch := lit "main";
     repository := {| owner := lit "googleapis"; repo := lit "java-demo" |};
     extraFiles := [ExtraPath unit (lit "README.md")];
     skipChangelog := false;
     changelogPath := lit "CHANGELOG.md";
     versionsContent := None |}.

Definition demo_world : World jsstring unit jsstring unit :=
  {| this := demo_this; requests := []; warnings := []; bumps := [] |}.

Definition demo_note : Note :=
  {| title := lit "RELEASE AS"; text := lit "1.0.0" |}.

Definition demo_commit : ConventionalCommit unit :=
  {| type := lit "feat";
     bareMessage := lit "promote";
     message := lit "feat: promote";
     breaking := false;
     scope := None;
     notes := [demo_note];
     files := [];
     references := [];
     sha := lit "abc123" |}.

Definition demo_map : VersionsMap jsstring :=
  [(lit "core", lit "0.9.0"); (lit "core-v2beta", lit "0.2.0")].

Definition demo_options : JavaBuildUpdatesOption jsstring jsstring :=
  {| newVersion := lit "1.0.0";
     versionsMap := demo_map;
     isSnapshot := false;
     changelogEntry := lit "### Features" |}.

(** The promotion reaches the stable key and leaves the other to the
    versioning strategy, which sees the commit without its note. *)
Example demo_updateVersionsMap :
  updateVersionsMap demo_parse demo_bump demo_map [demo_commit] demo_world
  = (Ok [(lit "core", lit "1.0.0");
         (lit "core-v2beta", lit "0.2.0+bumped")],
     {| this := demo_this; requests := []; warnings := [];
        bumps := [{| bump_version := lit "0.2.0";
                     bump_commits := [with_notes demo_commit []] |}] |}).
Proof. reflexivity. Qed.

Lemma updateVersionsMap_promotion_witness :
  (exists commit note,
      In commit [demo_commit] /\ In note (notes commit) /\
      title note = lit "RELEASE AS" /\ text note = lit "1.0.0") /\
  exists M' w',
    updateVersionsMap demo_parse demo_bump demo_map [demo_commit] demo_world
    = (Ok M', w') /\
    forall k, In k (Map.keys demo_map) -> isStableArtifact k = true ->
              Map.get M' k = Some (demo_parse (lit "1.0.0")).
Proof.
  assert (H : exists commit note,
             In commit [demo_commit] /\ In note (notes commit) /\
             title note = lit "RELEASE AS" /\ text note = lit "1.0.0").
  { exists demo_commit, demo_note. simpl. auto. }
  split; [exact H|].
  exact (updateVersionsMap_promotion demo_parse demo_bump demo_map
                                     [demo_commit] demo_world H).
Defined.

Lemma demo_searches :
  demo_find (requests demo_world) (lit "pom.xml")
            (targetBranch (this demo_world)) (root_path (this demo_world))
  = Ok [lit "pom.xml"] /\
  demo_find (requests demo_world
             ++ [search_request (this demo_world) (lit "pom.xml")])
            (lit "build.gradle")
            (targetBranch (this demo_world)) (root_path (this demo_world))
  = Ok [lit "build.gradle"] /\
  demo_find ((requests demo_world
              ++ [search_request (this demo_world) (lit "pom.xml")])
             ++ [search_request (this demo_world) (lit "build.gradle")])
            (lit "dependencies.properties")
            (targetBranch (this demo_world)) (root_path (this demo_world))
  = Ok [].
Proof. repeat split. Defined.

(** The plan of the specification: one file of each of the first two kinds,
    none of the third, one extra path, no snapshot, changelog wanted. *)
Lemma buildUpdates_order_witness :
  exists updates,
    fst (buildUpdates demo_find demo_addPath demo_options demo_world)
    = Ok updates /\
    length updates = 5 /\
    nth_error updates 4 = Some (changelog_update demo_addPath demo_this
                                                 demo_options).
Proof.
  destruct demo_searches as (H1 & H2 & H3).
  destruct (buildUpdates_order demo_find demo_addPath demo_options demo_world
                               H1 H2 H3)
    as (updates & Hrun & _ & Hfive).
  exists updates. split; [exact Hrun|].
  apply Hfive; reflexivity.
Defined.

Lemma buildUpdates_changelog_witness :
  exists updates,
    fst (buildUpdates demo_find demo_addPath demo_options demo_world)
    = Ok updates /\
    filter (@is_changelog _ _ _) updates
    = [changelog_update demo_addPath demo_this demo_options].
Proof.
  destruct demo_searches as (H1 & H2 & H3).
  destruct (buildUpdates_changelog demo_find demo_addPath demo_options
                                   demo_world H1 H2 H3)
    as (updates & Hrun & Hfilter & _).
  exists updates. split; [exact Hrun|exact Hfilter].
Defined.

Lemma buildUpdates_paths_witness :
  exists updates,
    fst (buildUpdates demo_find demo_addPath demo_options demo_world)
    = Ok updates /\
    map (@path _ _ _) updates
    = [lit "lib/versions.txt"; lit "lib/pom.xml"; lit "lib/build.gradle";
       lit "README.md"; lit "lib/CHANGELOG.md"].
Proof.
  destruct demo_searches as (H1 & H2 & H3).
  destruct (buildUpdates_paths demo_find demo_addPath demo_options
                               demo_world H1 H2 H3)
    as (updates & Hrun & Hpaths).
  exists updates. split; [exact Hrun|exact Hpaths].
Defined.

Lemma getVersionsContent_missing_file_witness :
  fst (getVersionsContent demo_get_missing demo_addPath demo_world)
  = Throw (MissingRequiredFileError (lit "lib/versions.txt")
                                    (lit "JavaYoshi")
                                    (lit "googleapis/java-demo")).
Proof.
  refine (proj1 (proj1 (getVersionsContent_missing_file
                          demo_get_missing demo_addPath demo_world
                          (err := FileNotFoundError (lit "lib/versions.txt"))
                          _ _) _)); reflexivity.
Defined.

(** The world after the first call against the changing backend. *)
Definition demo_world_fetched : World jsstring unit jsstring unit :=
  {| this := set_versionsContent demo_this (lit "core:0.9.0:0.9.1-SNAPSHOT");
     requests := [GetFileContentsOnBranch (lit "lib/versions.txt") (lit "main")];
     warnings := [];
     bumps := [] |}.

Lemma getVersionsContent_memoized_witness :
  getVersionsContent demo_get demo_addPath demo_world_fetched
  = (Ok (lit "core:0.9.0:0.9.1-SNAPSHOT"), demo_world_fetched).
Proof.
  refine (proj1 (proj2 (proj2 (proj2 (getVersionsContent_memoized
            demo_get demo_addPath demo_world
            (c := lit "core:0.9.0:0.9.1-SNAPSHOT") (w1 := demo_world_fetched)
            _ _))))); reflexivity.
Defined.

(** Three keys on which the code does not follow the rule "false when the
    qualifier is not empty and has no hyphen, true when it has one".  In the
    first the qualifier starts with a line feed, which the dot of the second
    pattern refuses; in the second the text after "-v2" is a digit, which
    the greedy digits take; both keys are stable.  In the third the text
    after "-v2" has a hyphen, and the key is not stable, because the text
    after its last hyphen is "v3beta". *)
Lemma isStableArtifact_qualifier_counterexample :
  (forallb isDigit (lit "2") = true /\
   10%N :: lit "beta" <> [] /\
   forallb notHyphen (10%N :: lit "beta") = true /\
   isStableArtifact (lit "core" ++ lit "-v" ++ lit "2" ++ 10%N :: lit "beta")
   = true) /\
  (forallb isDigit (lit "2") = true /\
   lit "3" <> [] /\
   forallb notHyphen (lit "3") = true /\
   isStableArtifact (lit "core" ++ lit "-v" ++ lit "2" ++ lit "3") = true) /\
  (forallb isDigit (lit "2") = true /\
   forallb notHyphen (lit "-v3beta") = false /\
   isStableArtifact (lit "core" ++ lit "-v" ++ lit "2" ++ lit "-v3beta")
   = false).
Proof. repeat split; discriminate. Qed.

(* ================================================================= *)
(** ** The worked release cycle, continued *)

Definition demo_parseVersions (c : jsstring) : VersionsMap jsstring := demo_map.

Definition demo_needsSnapshot (c : jsstring) : bool := truthy c.

Definition demo_can_skip (this : JavaYoshi jsstring unit) : bool := true.

Definition demo_cannot_skip (this : JavaYoshi jsstring unit) : bool := false.

(** A backend that fails once and then answers. *)
Definition demo_get_flaky (sent : list Request) (file branch : jsstring)
  : Result jsstring :=
  match sent with
  | [] => Throw (OtherError (lit "timeout"))
  | _ :: _ => Ok (lit "core:0.9.0:0.9.1-SNAPSHOT")
  end.

Definition demo_fix_commit : ConventionalCommit unit :=
  {| type := lit "fix";
     bareMessage := lit "typo";
     message := lit "fix: typo";
     breaking := false;
     scope := None;
     notes := [];
     files := [];
     references := [];
     sha := lit "def456" |}.

Lemma demo_map_NoDup : NoDup (Map.keys demo_map).
Proof.
  repeat constructor; simpl; intuition discriminate.
Defined.

Lemma updateVersionsMap_entries_witness :
  updateVersionsMap demo_parse demo_bump demo_map [demo_commit] demo_world
  = (Ok [(lit "core", lit "1.0.0");
         (lit "core-v2beta", lit "0.2.0+bumped")],
     with_bumps demo_world
       [{| bump_version := lit "0.2.0";
           bump_commits := [with_notes demo_commit []] |}]).
Proof.
  exact (updateVersionsMap_entries demo_parse demo_bump demo_map
                                   [demo_commit] demo_world demo_map_NoDup).
Defined.

Lemma updateVersionsMap_no_promotion_witness :
  updateVersionsMap demo_parse demo_bump demo_map [demo_fix_commit] demo_world
  = (Ok [(lit "core", lit "0.9.0+bumped");
         (lit "core-v2beta", lit "0.2.0+bumped")],
     with_bumps demo_world
       [{| bump_version := lit "0.9.0"; bump_commits := [demo_fix_commit] |};
        {| bump_version := lit "0.2.0"; bump_commits := [demo_fix_commit] |}]).
Proof.
  exact (updateVersionsMap_no_promotion demo_parse demo_bump demo_map
           [demo_fix_commit] demo_world demo_map_NoDup eq_refl).
Defined.

Lemma getVersionsContent_retry_witness :
  fst (getVersionsContent demo_get_flaky demo_addPath demo_world)
  = Throw (OtherError (lit "timeout")) /\
  fst (getVersionsContent demo_get_flaky demo_addPath
         (snd (getVersionsContent demo_get_flaky demo_addPath demo_world)))
  = Ok (lit "core:0.9.0:0.9.1-SNAPSHOT").
Proof.
  pose proof (getVersionsContent_retry demo_get_flaky demo_addPath demo_world
                (err := OtherError (lit "timeout"))
                (c := lit "core:0.9.0:0.9.1-SNAPSHOT")
                eq_refl eq_refl eq_refl) as (H1 & H2 & _).
  split; [exact H1|exact H2].
Defined.

(** Nothing is asked of a backend without registry when snapshots can be
    skipped. *)
Lemma needsSnapshot_skip_witness :
  needsSnapshot demo_get_missing demo_addPath demo_needsSnapshot
                demo_can_skip demo_world
  = (Ok false, demo_world).
Proof.
  exact (needsSnapshot_skip demo_get_missing demo_addPath demo_needsSnapshot
                            demo_can_skip demo_world eq_refl).
Defined.

Lemma registry_errors_pass_through_witness :
  fst (buildVersionsMap demo_get_missing demo_addPath demo_parseVersions
                        demo_world)
  = Throw (MissingRequiredFileError (lit "lib/versions.txt")
                                    (lit "JavaYoshi")
                                    (lit "googleapis/java-demo")) /\
  fst (needsSnapshot demo_get_missing demo_addPath demo_needsSnapshot
                     demo_cannot_skip demo_world)
  = Throw (MissingRequiredFileError (lit "lib/versions.txt")
                                    (lit "JavaYoshi")
                                    (lit "googleapis/java-demo")).
Proof.
  pose proof (registry_errors_pass_through
                demo_get_missing demo_addPath demo_parseVersions
                demo_needsSnapshot demo_cannot_skip demo_world
                (err := FileNotFoundError (lit "lib/versions.txt"))
                eq_refl eq_refl) as (H1 & _ & H2).
  split; [exact H1|exact (proj1 (H2 eq_refl))].
Defined.

Lemma demo_buildVersionsMap :
  buildVersionsMap demo_get demo_addPath demo_parseVersions demo_world
  = (Ok demo_map, demo_world_fetched).
Proof. reflexivity. Defined.

Lemma buildVersionsMap_settles_witness :
  exists c,
    getVersionsContent demo_get demo_addPath demo_world_fetched
    = (Ok c, demo_world_fetched) /\
    buildVersionsMap demo_get demo_addPath demo_parseVersions
                     demo_world_fetched
    = (Ok demo_map, demo_world_fetched).
Proof.
  destruct (buildVersionsMap_settles demo_get demo_addPath demo_parseVersions
              demo_needsSnapshot demo_cannot_skip demo_world
              demo_buildVersionsMap)
    as (c & _ & _ & Hget & Hmap & _).
  exists c. split; [exact Hget|exact Hmap].
Defined.

Lemma needsSnapshot_then_buildVersionsMap_witness :
  exists c,
    true = demo_needsSnapshot c /\
    fst (buildVersionsMap demo_get demo_addPath demo_parseVersions
                          demo_world_fetched)
    = Ok (demo_parseVersions c) /\
    requests (snd (buildVersionsMap demo_get demo_addPath demo_parseVersions
                                    demo_world_fetched))
    = requests demo_world_fetched.
Proof.
  exact (needsSnapshot_then_buildVersionsMap
           demo_get demo_addPath demo_parseVersions demo_needsSnapshot
           demo_cannot_skip demo_world
           (b := true) (w1 := demo_world_fetched) eq_refl eq_refl).
Defined.

Lemma buildUpdates_descriptors_witness :
  exists updates,
    fst (buildUpdates demo_find demo_addPath demo_options demo_world)
    = Ok updates /\
    Forall (descriptor_ok demo_addPath demo_this demo_options) updates.
Proof.
  destruct demo_searches as (H1 & H2 & H3).
  exact (buildUpdates_descriptors demo_find demo_addPath demo_options
                                  demo_world H1 H2 H3).
Defined.

Lemma demo_searches_fetched :
  demo_find (requests demo_world_fetched) (lit "pom.xml")
            (targetBranch (this demo_world_fetched))
            (root_path (this demo_world_fetched))
  = Ok [lit "pom.xml"] /\
  demo_find (requests demo_world_fetched
             ++ [search_request (this demo_world_fetched) (lit "pom.xml")])
            (lit "build.gradle")
            (targetBranch (this demo_world_fetched))
            (root_path (this demo_world_fetched))
  = Ok [lit "build.gradle"] /\
  demo_find ((requests demo_world_fetched
              ++ [search_request (this demo_world_fetched) (lit "pom.xml")])
             ++ [search_request (this demo_world_fetched)
                                (lit "build.gradle")])
            (lit "dependencies.properties")
            (targetBranch (this demo_world_fetched))
            (root_path (this demo_world_fetched))
  = Ok [].
Proof. repeat split. Defined.

Lemma buildVersionsMap_then_buildUpdates_witness :
  exists c others,
    demo_map = demo_parseVersions c /\
    fst (buildUpdates demo_find demo_addPath demo_options demo_world_fetched)
    = Ok ({| path := demo_addPath (this demo_world_fetched)
                                  (lit "versions.txt");
             createIfMissing := false;
             cachedFileContents := Some c;
             updater := VersionsManifest jsstring (newVersion demo_options)
                                         (versionsMap demo_options) |}
          :: others).
Proof.
  destruct demo_searches_fetched as (H1 & H2 & H3).
  exact (buildVersionsMap_then_buildUpdates
           demo_get demo_find demo_addPath demo_parseVersions demo_options
           demo_world demo_buildVersionsMap H1 H2 H3).
Defined.

Lemma isStableArtifact_suffix_witness :
  isStableArtifact (lit "core" ++ hyphen :: lit "v2beta")
  = isStableArtifact (lit "grpc-core" ++ hyphen :: lit "v2beta").
Proof.
  exact (isStableArtifact_suffix (lit "core") (lit "grpc-core")
                                 (lit "v2beta") eq_refl eq_refl eq_refl).
Defined.

(** The promotion commit reaches the versioning strategy once, for the key
    that is not stable, and without its note. *)
Lemma updateVersionsMap_bump_commits_witness :
  exists calls,
    bumps (snd (updateVersionsMap demo_parse demo_bump demo_map
                                  [demo_commit] demo_world))
    = calls /\
    map (@bump_commits _ _) calls = [[with_notes demo_commit []]].
Proof.
  destruct (updateVersionsMap_bump_commits demo_parse demo_bump demo_map
                                           [demo_commit] demo_world)
    as (calls & Hb & Hc & _).
  exists calls. split; [exact Hb|exact Hc].
Defined.
